(** * Phone-use: the agent control loop and the action executor

    A shallow embedding of [action_executor.py] ([summarize_action],
    [execute_action]) and of the automation loop of [main.py], together
    with the fragment of Python's value semantics these functions rely on
    (truthiness, [==], [str]/[repr], slicing, int/float arithmetic). *)

From Stdlib Require Import ZArith List String Ascii Bool Arith Lia.
From Stdlib Require Import DecimalString.
From Stdlib Require Import Floats.PrimFloat Floats.SpecFloat Floats.FloatOps.
Import ListNotations.

#[local] Set Warnings "-register-all,-inexact-float".

Local Open Scope string_scope.
Local Open Scope Z_scope.
Local Open Scope list_scope.

Declare Scope pystr_scope.
Delimit Scope pystr_scope with py.
Infix "+s+" := String.append (at level 60, right associativity) : pystr_scope.
Local Open Scope pystr_scope.

(* ===================================================================== *)
(** ** Python values *)
(* ===================================================================== *)

Module Py.

(** The values that reach the agent: what [json.loads] builds for an action
    and what [ast.literal_eval] builds for a screen element.  Integers are
    unbounded, floats are IEEE binary64, dictionaries keep insertion order
    and are keyed by strings (a string is a sequence of code points below
    256).  Values are compared by [==], never by identity: the action and
    the elements come from different parsers and share no object. *)
Inductive pyval : Type :=
| PNone
| PBool (b : bool)
| PInt (z : Z)
| PFloat (f : float)
| PStr (s : string)
| PList (l : list pyval)
| PDict (d : list (string * pyval)).

Definition pydict : Type := list (string * pyval).

(** The exceptions the modelled builtins raise; all derive from [Exception]. *)
Inductive pyexn : Type :=
| TypeError | ValueError | OverflowError | KeyError | IndexError.

(** A computation that returns a value or raises. *)
Inductive exc (A : Type) : Type :=
| Ok (a : A)
| Raise (e : pyexn).
Arguments Ok {A} a.
Arguments Raise {A} e.

Definition exc_bind {A B} (c : exc A) (k : A -> exc B) : exc B :=
  match c with
  | Ok a => k a
  | Raise e => Raise e
  end.

(** [try: body  except Exception: handler] for a pure body. *)
Definition try_except {A} (body : exc A) (handler : pyexn -> exc A) : exc A :=
  match body with
  | Ok a => Ok a
  | Raise e => handler e
  end.

(** *** Dictionaries *)

Fixpoint dict_lookup (k : string) (d : pydict) : option pyval :=
  match d with
  | [] => None
  | (k', v) :: rest => if String.eqb k k' then Some v else dict_lookup k rest
  end.

(** [d.get(k)] *)
Definition dict_get (d : pydict) (k : string) : pyval :=
  match dict_lookup k d with
  | Some v => v
  | None => PNone
  end.

(** [d.get(k, default)] *)
Definition dict_get_default (d : pydict) (k : string) (default : pyval) : pyval :=
  match dict_lookup k d with
  | Some v => v
  | None => default
  end.

(** *** Numbers *)

Inductive num : Type :=
| NInt (z : Z)
| NFloat (f : float).

(** [bool] is a subclass of [int]. *)
Definition num_view (v : pyval) : option num :=
  match v with
  | PBool b => Some (NInt (Z.b2z b))
  | PInt z => Some (NInt z)
  | PFloat f => Some (NFloat f)
  | _ => None
  end.

(** [float(z)]: nearest binary64, ties to even; too large an int raises. *)
Definition float_of_int (z : Z) : exc float :=
  let f := SF2Prim (binary_normalize prec emax z 0 false) in
  if PrimFloat.is_infinity f then Raise OverflowError else Ok f.

(** The integer a float is exactly equal to, if any. *)
Definition float_exact_int (f : float) : option Z :=
  match Prim2SF f with
  | S754_zero _ => Some 0
  | S754_finite s m e =>
      let sign := if s then -1 else 1 in
      if 0 <=? e then Some (sign * (Z.pos m * 2 ^ e))
      else if (Z.pos m mod 2 ^ (- e)) =? 0 then Some (sign * (Z.pos m / 2 ^ (- e)))
      else None
  | _ => None
  end.

Definition num_eqb (a b : num) : bool :=
  match a, b with
  | NInt x, NInt y => x =? y
  | NFloat x, NFloat y => PrimFloat.eqb x y
  | NInt x, NFloat y | NFloat y, NInt x =>
      match float_exact_int y with
      | Some z => x =? z
      | None => false
      end
  end.

(** *** Equality and truth value *)

(** [a == b] *)
Fixpoint py_eq (a b : pyval) {struct a} : bool :=
  match a with
  | PNone => match b with PNone => true | _ => false end
  | PBool _ | PInt _ | PFloat _ =>
      match num_view a, num_view b with
      | Some x, Some y => num_eqb x y
      | _, _ => false
      end
  | PStr s => match b with PStr t => String.eqb s t | _ => false end
  | PList la =>
      match b with
      | PList lb =>
          (fix all2 (xs ys : list pyval) {struct xs} : bool :=
             match xs, ys with
             | [], [] => true
             | x :: xs', y :: ys' => py_eq x y && all2 xs' ys'
             | _, _ => false
             end) la lb
      | _ => false
      end
  | PDict da =>
      match b with
      | PDict db =>
          Nat.eqb (List.length da) (List.length db) &&
          (fix sub (xs : pydict) {struct xs} : bool :=
             match xs with
             | [] => true
             | (k, v) :: xs' =>
                 match dict_lookup k db with
                 | Some w => py_eq v w
                 | None => false
                 end && sub xs'
             end) da
      | _ => false
      end
  end.

(** [bool(v)] *)
Definition py_truthy (v : pyval) : bool :=
  match v with
  | PNone => false
  | PBool b => b
  | PInt z => negb (z =? 0)
  | PFloat f => negb (PrimFloat.eqb f 0)
  | PStr s => match s with EmptyString => false | _ => true end
  | PList l => match l with [] => false | _ => true end
  | PDict d => match d with [] => false | _ => true end
  end.

Definition py_is_none (v : pyval) : bool :=
  match v with PNone => true | _ => false end.

(** [x in l] for a list display [l] *)
Definition py_in (x : pyval) (l : list pyval) : bool :=
  existsb (fun y => py_eq y x) l.

(** *** Strings *)

Fixpoint str_contains (c : ascii) (s : string) : bool :=
  match s with
  | EmptyString => false
  | String c' rest => Ascii.eqb c c' || str_contains c rest
  end.

Definition code (c : ascii) : nat := nat_of_ascii c.

(** [c.isspace()] on code points below 256 *)
Definition isspace (c : ascii) : bool :=
  let n := code c in
  ((9 <=? n) && (n <=? 13) || (28 <=? n) && (n <=? 32) || (n =? 133) || (n =? 160))%nat.

Fixpoint lstrip (s : string) : string :=
  match s with
  | EmptyString => EmptyString
  | String c rest => if isspace c then lstrip rest else s
  end.

Fixpoint rstrip (s : string) : string :=
  match s with
  | EmptyString => EmptyString
  | String c rest =>
      match rstrip rest with
      | EmptyString => if isspace c then EmptyString else String c EmptyString
      | rest' => String c rest'
      end
  end.

(** [s.strip()] *)
Definition py_strip (s : string) : string := rstrip (lstrip s).

(** [s[:n]] on a string *)
Definition str_prefix (n : nat) (s : string) : string := substring 0 n s.

Definition hex_digit (n : nat) : ascii :=
  nth n (list_ascii_of_string "0123456789abcdef") "0"%char.

(** Code points that [repr] writes as they are. *)
Definition isprintable (c : ascii) : bool :=
  let n := code c in
  ((32 <=? n) && (n <? 127) || (161 <=? n) && negb (n =? 173))%nat.

Definition repr_char (quote c : ascii) : string :=
  if Ascii.eqb c quote || Ascii.eqb c "\"%char then String "\"%char (String c EmptyString)
  else if (code c =? 9)%nat then "\t"
  else if (code c =? 10)%nat then "\n"
  else if (code c =? 13)%nat then "\r"
  else if isprintable c then String c EmptyString
  else String "\"%char (String "x"%char
         (String (hex_digit (code c / 16)) (String (hex_digit (code c mod 16)) EmptyString))).

Fixpoint repr_chars (quote : ascii) (s : string) : string :=
  match s with
  | EmptyString => EmptyString
  | String c rest => repr_char quote c +s+ repr_chars quote rest
  end.

Definition squote : ascii := "'"%char.
Definition dquote : ascii := ascii_of_nat 34.

(** [repr(s)] for a string: single quotes unless the text has a single
    quote and no double quote. *)
Definition repr_str (s : string) : string :=
  let quote := if str_contains squote s && negb (str_contains dquote s) then dquote else squote in
  String quote (repr_chars quote s +s+ String quote EmptyString).

(** [str(z)] for an int *)
Definition str_int (z : Z) : string := NilZero.string_of_int (Z.to_int z).

(** *** [repr] of a float

    The shortest decimal that reads back as the same binary64, the
    closest such one when several have that length. *)

(** [D * 10^q] against [X * 2^E], for non-negative [D] and [X]. *)
Definition cmp_scaled (D q X E : Z) : comparison :=
  (D * 10 ^ Z.max q 0 * 2 ^ Z.max (- E) 0) ?= (X * 2 ^ Z.max E 0 * 10 ^ Z.max (- q) 0).

(** [floor (m * 2^e / 10^q)] *)
Definition floor_scaled (m e q : Z) : Z :=
  (m * 2 ^ Z.max e 0 * 10 ^ Z.max (- q) 0) / (2 ^ Z.max (- e) 0 * 10 ^ Z.max q 0).

(** The [k] with [10^(k-1) <= m * 2^e < 10^k]. *)
Definition decimal_exponent (m e : Z) : Z :=
  let est := (Z.log2 m + e) * 30103 / 100000 in
  match cmp_scaled 1 est m e with
  | Gt => est
  | _ => match cmp_scaled 1 (est + 1) m e with
         | Gt => est + 1
         | _ => est + 2
         end
  end.

(** The [n]-digit decimal [d * 10^(k-n)] that rounds to [m * 2^e], if there
    is one.  The rounding interval is written in units of [2^(e-2)]; its
    ends belong to it when the mantissa is even, and its lower half is
    shorter at a power of two. *)
Definition candidate (m e k : Z) (n : Z) : option Z :=
  let q := k - n in
  let inclusive := Z.even m in
  let boundary := (m =? 2 ^ 52) && (-1074 <? e) in
  let lo := 4 * m - (if boundary then 1 else 2) in
  let hi := 4 * m + 2 in
  let d_lo := floor_scaled m e q in
  let d_hi := d_lo + 1 in
  let lo_ok := match cmp_scaled d_lo q lo (e - 2) with
               | Gt => true | Eq => inclusive | Lt => false end in
  let hi_ok := match cmp_scaled d_hi q hi (e - 2) with
               | Lt => true | Eq => inclusive | Gt => false end in
  match lo_ok, hi_ok with
  | true, true =>
      match cmp_scaled (2 * d_lo + 1) q (8 * m) (e - 2) with
      | Gt => Some d_lo
      | Lt => Some d_hi
      | Eq => Some (if Z.even d_lo then d_lo else d_hi)
      end
  | true, false => Some d_lo
  | false, true => Some d_hi
  | false, false => None
  end.

Fixpoint shortest (fuel : nat) (m e k : Z) (n : Z) : Z * Z :=
  match fuel with
  | O => (floor_scaled m e (k - n), n)
  | S fuel' =>
      match candidate m e k n with
      | Some d => (d, n)
      | None => shortest fuel' m e k (n + 1)
      end
  end.

Fixpoint zeros (n : nat) : string :=
  match n with
  | O => EmptyString
  | S n' => String "0"%char (zeros n')
  end.

(** The digits and the position of the decimal point: the value is
    [0.d1...dn * 10^decpt]. *)
Definition float_digits (m e : Z) : string * Z :=
  let k := decimal_exponent m e in
  let '(d, n) := shortest 17 m e k 1 in
  if d =? 10 ^ n then ("1", k + 1) else (str_int d, k).

Definition format_short (ds : string) (decpt : Z) : string :=
  let nd := Z.of_nat (String.length ds) in
  if (decpt <=? -4) || (16 <? decpt) then
    let mant := match ds with
                | String c (String _ _ as rest) => String c ("." +s+ rest)
                | _ => ds
                end in
    let x := decpt - 1 in
    let xs := str_int (Z.abs x) in
    mant +s+ "e" +s+ (if x <? 0 then "-" else "+")
         +s+ (if Z.abs x <? 10 then "0" +s+ xs else xs)
  else if decpt <=? 0 then "0." +s+ zeros (Z.to_nat (- decpt)) +s+ ds
  else if nd <=? decpt then ds +s+ zeros (Z.to_nat (decpt - nd)) +s+ ".0"
  else substring 0 (Z.to_nat decpt) ds +s+ "."
       +s+ substring (Z.to_nat decpt) (Z.to_nat (nd - decpt)) ds.

(** [repr(f)] for a float *)
Definition repr_float (f : float) : string :=
  match Prim2SF f with
  | S754_zero s => if s then "-0.0" else "0.0"
  | S754_infinity s => if s then "-inf" else "inf"
  | S754_nan => "nan"
  | S754_finite s m e =>
      let '(ds, decpt) := float_digits (Z.pos m) e in
      (if s then "-" else EmptyString) +s+ format_short ds decpt
  end.

(** *** [repr] and [str] of a value *)

Fixpoint py_repr (v : pyval) : string :=
  match v with
  | PNone => "None"
  | PBool b => if b then "True" else "False"
  | PInt z => str_int z
  | PFloat f => repr_float f
  | PStr s => repr_str s
  | PList l =>
      "[" +s+ String.concat ", "
                ((fix items (xs : list pyval) : list string :=
                    match xs with
                    | [] => []
                    | x :: xs' => py_repr x :: items xs'
                    end) l) +s+ "]"
  | PDict d =>
      "{" +s+ String.concat ", "
                ((fix items (xs : pydict) : list string :=
                    match xs with
                    | [] => []
                    | (k, x) :: xs' => (repr_str k +s+ ": " +s+ py_repr x) :: items xs'
                    end) d) +s+ "}"
  end.

(** [str(v)], which is also what an f-string field [{v}] writes *)
Definition py_str (v : pyval) : string :=
  match v with
  | PStr s => s
  | _ => py_repr v
  end.

(** *** Sequences *)

(** [v[:n]] *)
Definition py_slice_to (n : nat) (v : pyval) : exc pyval :=
  match v with
  | PStr s => Ok (PStr (str_prefix n s))
  | PList l => Ok (PList (firstn n l))
  | _ => Raise TypeError
  end.

(** [len(v)] *)
Definition py_len (v : pyval) : exc nat :=
  match v with
  | PStr s => Ok (String.length s)
  | PList l => Ok (List.length l)
  | PDict d => Ok (List.length d)
  | _ => Raise TypeError
  end.

(** [v[i]] for a literal index [i >= 0]; a dictionary keyed by strings has
    no integer key. *)
Definition py_getitem (v : pyval) (i : nat) : exc pyval :=
  match v with
  | PList l => match nth_error l i with
               | Some x => Ok x
               | None => Raise IndexError
               end
  | PStr s => match String.get i s with
              | Some c => Ok (PStr (String c EmptyString))
              | None => Raise IndexError
              end
  | PDict _ => Raise KeyError
  | _ => Raise TypeError
  end.

(** [l[start:]] for a list, [start] of either sign *)
Definition list_slice_from {A} (start : Z) (l : list A) : list A :=
  let len := Z.of_nat (List.length l) in
  let i := if start <? 0 then Z.max (len + start) 0 else Z.min start len in
  skipn (Z.to_nat i) l.

(** *** Arithmetic *)

Fixpoint str_repeat (n : nat) (s : string) : string :=
  match n with
  | O => EmptyString
  | S n' => s +s+ str_repeat n' s
  end.

Fixpoint list_repeat {A} (n : nat) (l : list A) : list A :=
  match n with
  | O => []
  | S n' => l ++ list_repeat n' l
  end.

(** [a + b] *)
Definition py_add (a b : pyval) : exc pyval :=
  match num_view a, num_view b with
  | Some (NInt x), Some (NInt y) => Ok (PInt (x + y))
  | Some (NFloat x), Some (NFloat y) => Ok (PFloat (PrimFloat.add x y))
  | Some (NInt x), Some (NFloat y) =>
      exc_bind (float_of_int x) (fun fx => Ok (PFloat (PrimFloat.add fx y)))
  | Some (NFloat x), Some (NInt y) =>
      exc_bind (float_of_int y) (fun fy => Ok (PFloat (PrimFloat.add x fy)))
  | _, _ =>
      match a, b with
      | PStr s, PStr t => Ok (PStr (s +s+ t))
      | PList l, PList r => Ok (PList (l ++ r))
      | _, _ => Raise TypeError
      end
  end.

(** [a / 2]: true division by the int literal 2, correctly rounded. *)
Definition py_div2 (a : pyval) : exc pyval :=
  match num_view a with
  | Some (NInt x) =>
      let f := SF2Prim (binary_normalize prec emax x (-1) false) in
      if PrimFloat.is_infinity f then Raise OverflowError else Ok (PFloat f)
  | Some (NFloat x) => Ok (PFloat (PrimFloat.div x 2))
  | None => Raise TypeError
  end.

(** The largest repetition count of a sequence ([sys.maxsize], 64 bits). *)
Definition maxsize : Z := 2 ^ 63 - 1.

(** [a * n] and [n * a] for an int [n]; a sequence is repeated, no times
    when [n] is negative. *)
Definition py_mul_int (a : pyval) (n : Z) : exc pyval :=
  match a with
  | PBool b => Ok (PInt (Z.b2z b * n))
  | PInt x => Ok (PInt (x * n))
  | PFloat x => exc_bind (float_of_int n) (fun fn => Ok (PFloat (PrimFloat.mul x fn)))
  | PStr s => if maxsize <? n then Raise OverflowError
              else Ok (PStr (str_repeat (Z.to_nat n) s))
  | PList l => if maxsize <? n then Raise OverflowError
               else Ok (PList (list_repeat (Z.to_nat n) l))
  | PNone | PDict _ => Raise TypeError
  end.

(** [n * c] for an int [n] and a float constant [c] *)
Definition int_mul_float (n : Z) (c : float) : exc float :=
  exc_bind (float_of_int n) (fun fn => Ok (PrimFloat.mul fn c)).

(** [int(f)] for a float: towards zero; infinities and NaN raise. *)
Definition int_of_float (f : float) : exc Z :=
  match Prim2SF f with
  | S754_zero _ => Ok 0
  | S754_finite s m e =>
      let mag := if 0 <=? e then Z.pos m * 2 ^ e else Z.pos m / 2 ^ (- e) in
      Ok (if s then - mag else mag)
  | S754_infinity _ => Raise OverflowError
  | S754_nan => Raise ValueError
  end.

Definition isdigit (c : ascii) : bool := ((48 <=? code c) && (code c <=? 57))%nat.

(** Decimal digits with single underscores between them; gives the value
    and the number of digits. *)
Fixpoint parse_digits (acc : Z) (count : nat) (after_digit : bool) (cs : list ascii)
  : option (Z * nat) :=
  match cs with
  | [] => if after_digit then Some (acc, count) else None
  | c :: rest =>
      if isdigit c then
        parse_digits (10 * acc + Z.of_nat (code c - 48)) (S count) true rest
      else if Ascii.eqb c "_"%char && after_digit then parse_digits acc count false rest
      else None
  end.

(** The blanks [int] skips around the digits: those of [isspace] except the
    separators 28 to 31. *)
Definition int_blank (c : ascii) : bool :=
  isspace c && negb ((28 <=? code c) && (code c <=? 31))%nat.

Fixpoint drop_blanks (s : string) : string :=
  match s with
  | EmptyString => EmptyString
  | String c rest => if int_blank c then drop_blanks rest else s
  end.

Fixpoint drop_blanks_end (s : string) : string :=
  match s with
  | EmptyString => EmptyString
  | String c rest =>
      match drop_blanks_end rest with
      | EmptyString => if int_blank c then EmptyString else String c EmptyString
      | rest' => String c rest'
      end
  end.

(** The longest digit string [int] converts. *)
Definition int_max_str_digits : nat := 4300.

(** [int(s)] for a string *)
Definition int_of_str (s : string) : exc Z :=
  let cs := list_ascii_of_string (drop_blanks_end (drop_blanks s)) in
  let '(neg, body) :=
    match cs with
    | c :: rest => if Ascii.eqb c "-"%char then (true, rest)
                   else if Ascii.eqb c "+"%char then (false, rest)
                   else (false, cs)
    | [] => (false, cs)
    end in
  match parse_digits 0 0 false body with
  | Some (z, count) =>
      if (int_max_str_digits <? count)%nat then Raise ValueError
      else Ok (if neg then - z else z)
  | None => Raise ValueError
  end.

(** [int(v)] *)
Definition py_int (v : pyval) : exc Z :=
  match v with
  | PBool b => Ok (Z.b2z b)
  | PInt z => Ok z
  | PFloat f => int_of_float f
  | PStr s => int_of_str s
  | PNone | PList _ | PDict _ => Raise TypeError
  end.

End Py.

Import Py.

(* ===================================================================== *)
(** ** config.py *)
(* ===================================================================== *)

Module config.

Definition MAX_STEPS : nat := 15.
Definition DEFAULT_WAIT_TIME : pyval := PFloat 2.0.
Definition ACTION_HISTORY_LENGTH : Z := 5.

End config.

(* ===================================================================== *)
(** ** adb_controller.py: the device *)
(* ===================================================================== *)

(** What the executor does to the outside world, in the order it does it:
    the four primitives of [ADBController] and its own [time.sleep]. *)
Inductive call : Type :=
| Tap (x y : Z)
| Swipe (x1 y1 x2 y2 : Z) (duration_ms : pyval)
| InputText (text : pyval)
| Wait (seconds : pyval)
| Sleep (seconds : float).

(** The device: [responses n] tells whether the device accepts the
    primitive issued as the [n]-th call, [log] holds the calls made so far. *)
Record ADBController : Type := mkADB {
  responses : nat -> bool;
  log : list call
}.

Definition record_call (adb : ADBController) (c : call) : ADBController :=
  mkADB (responses adb) (log adb ++ [c]).

Definition device_accepts (adb : ADBController) : bool :=
  responses adb (List.length (log adb)).

(** [time.sleep(seconds)]: a number of seconds, not NaN, within 2^63
    nanoseconds, not negative. *)
Definition sleep_check (seconds : pyval) : exc unit :=
  match num_view seconds with
  | None => Raise TypeError
  | Some (NInt z) =>
      if (2 ^ 63 <=? Z.abs z * 10 ^ 9) then Raise OverflowError
      else if z <? 0 then Raise ValueError
      else Ok tt
  | Some (NFloat f) =>
      if PrimFloat.is_nan f then Raise ValueError
      else if PrimFloat.leb 9223372036.854775807 (PrimFloat.abs f) then Raise OverflowError
      else if PrimFloat.ltb f 0 then Raise ValueError
      else Ok tt
  end.

(** *** Statements that may return early or raise, over the device *)

Inductive ctl (A : Type) : Type :=
| Next (a : A)          (* falls through to the next statement *)
| Return (r : bool)     (* [return r] *)
| Throw (e : pyexn).    (* an exception propagates *)
Arguments Next {A} a.
Arguments Return {A} r.
Arguments Throw {A} e.

Definition M (A : Type) : Type := ADBController -> ctl A * ADBController.

Definition ret {A} (a : A) : M A := fun adb => (Next a, adb).

Definition bind {A B} (c : M A) (k : A -> M B) : M B :=
  fun adb =>
    match c adb with
    | (Next a, adb') => k a adb'
    | (Return r, adb') => (Return r, adb')
    | (Throw e, adb') => (Throw e, adb')
    end.

Definition return_ {A} (r : bool) : M A := fun adb => (Return r, adb).

Definition lift {A} (c : exc A) : M A :=
  fun adb => match c with
             | Ok a => (Next a, adb)
             | Raise e => (Throw e, adb)
             end.

(** [try: body  except Exception: handler] *)
Definition try_ {A} (body : M A) (handler : pyexn -> M A) : M A :=
  fun adb =>
    match body adb with
    | (Throw e, adb') => handler e adb'
    | r => r
    end.

(** A function whose body ends in a [return]: what the caller gets. *)
Definition function (body : M bool) (adb : ADBController) : exc bool * ADBController :=
  match body adb with
  | (Next r, adb') | (Return r, adb') => (Ok r, adb')
  | (Throw e, adb') => (Raise e, adb')
  end.

Declare Scope py_scope.
Delimit Scope py_scope with M.
Notation "x <- c ;; k" := (bind c (fun x => k))
  (at level 61, c at next level, right associativity) : py_scope.
Notation "c ;;; k" := (bind c (fun _ => k))
  (at level 61, right associativity) : py_scope.
Notation "'when' b 'do' c" := (if b then c else ret tt)
  (at level 60, right associativity) : py_scope.
Local Open Scope py_scope.

(** *** The primitives of [ADBController] *)

(** [tap(x, y)]: true unless the device raises. *)
Definition tap (x y : Z) : M bool :=
  fun adb => (Next (device_accepts adb), record_call adb (Tap x y)).

(** Whether [duration_ms / 1000.0] has a value: the duration is a number,
    and no int too large for a float. *)
Definition duration_valid (duration_ms : pyval) : bool :=
  match num_view duration_ms with
  | Some (NInt z) => match float_of_int z with Ok _ => true | Raise _ => false end
  | Some (NFloat _) => true
  | None => false
  end.

(** [swipe(x1, y1, x2, y2, duration_ms)]: [duration_ms / 1000.0] is computed
    inside the method's [try], so a duration without such a value gives
    [False]. *)
Definition swipe (x1 y1 x2 y2 : Z) (duration_ms : pyval) : M bool :=
  fun adb =>
    (Next (duration_valid duration_ms && device_accepts adb),
     record_call adb (Swipe x1 y1 x2 y2 duration_ms)).

(** [input_text(text)]: [text.replace] is called inside the method's [try],
    so a text that is no string gives [False]. *)
Definition input_text (text : pyval) : M bool :=
  fun adb =>
    let valid := match text with PStr _ => true | _ => false end in
    (Next (valid && device_accepts adb), record_call adb (InputText text)).

(** [wait(seconds)]: [time.sleep] outside any [try]. *)
Definition wait (seconds : pyval) : M unit :=
  fun adb =>
    (match sleep_check seconds with
     | Ok _ => Next tt
     | Raise e => Throw e
     end, record_call adb (Wait seconds)).

(** [time.sleep(0.5)] in the executor. *)
Definition sleep (seconds : float) : M unit :=
  fun adb => (Next tt, record_call adb (Sleep seconds)).

(* ===================================================================== *)
(** ** action_executor.py *)
(* ===================================================================== *)

Definition elements : Type := option (list pydict).

(** [(omni_elements or [])] *)
Definition or_empty (omni_elements : elements) : list pydict :=
  match omni_elements with
  | Some (e :: l) => e :: l
  | _ => []
  end.

(** [next((e for e in (omni_elements or []) if e.get('index') == idx), None)] *)
Definition find_element (omni_elements : elements) (idx : pyval) : option pydict :=
  find (fun e => py_eq (dict_get e "index") idx) (or_empty omni_elements).

(** The truth value of what [find_element] gives: [None] and the empty
    dictionary are false. *)
Definition found (target_element : option pydict) : bool :=
  match target_element with
  | Some (_ :: _) => true
  | _ => false
  end.

(** [target_element.get(k, default)] once [target_element] is known to be true. *)
Definition target_get (target_element : option pydict) (k : string) (default : pyval) : pyval :=
  match target_element with
  | Some e => dict_get_default e k default
  | None => default
  end.

Definition is_kind (action_type : pyval) (kind : string) : bool :=
  py_eq action_type (PStr kind).

(** The body of the [try] of [summarize_action]. *)
Definition summarize_body (action_data : pydict) (omni_elements : elements)
           (action_type : pyval) (summary : string) : exc string :=
  if is_kind action_type "TAP" then
    let idx := dict_get action_data "element_index" in
    let target_element := find_element omni_elements idx in
    let content :=
      if found target_element
      then "'" +s+ py_strip (str_prefix 20 (py_str (target_get target_element "content" (PStr "N/A")))) +s+ "'"
      else "'Element not found'" in
    Ok (summary +s+ " (Index: " +s+ py_str idx +s+ ", Content: " +s+ content +s+ ")")
  else if is_kind action_type "INPUT_TEXT" then
    let text := dict_get_default action_data "text" (PStr EmptyString) in
    let idx := dict_get action_data "element_index" in
    exc_bind (py_slice_to 20 text) (fun text20 =>
    Ok (summary +s+ " (Text: '" +s+ py_str text20 +s+ "...', Index: "
                +s+ (if py_is_none idx then "N/A" else py_str idx) +s+ ")"))
  else if is_kind action_type "SWIPE" then
    Ok (summary +s+ " (From: (" +s+ py_str (dict_get action_data "start_x") +s+ ","
                +s+ py_str (dict_get action_data "start_y") +s+ ") To: ("
                +s+ py_str (dict_get action_data "end_x") +s+ ","
                +s+ py_str (dict_get action_data "end_y") +s+ "))")
  else if is_kind action_type "WAIT" then
    Ok (summary +s+ " (" +s+ py_str (dict_get action_data "duration_seconds") +s+ "s)")
  else Ok summary.

(** [summarize_action(action_data, omni_elements)] *)
Definition summarize_action (action_data : pydict) (omni_elements : elements) : exc string :=
  let action_type := dict_get action_data "action" in
  let summary := "Action: " +s+ py_str action_type in
  try_except (summarize_body action_data omni_elements action_type summary)
             (fun _ => Ok (py_str (PDict action_data))).

(** [int(((lo + hi) / 2) * extent)]: the middle of two relative
    coordinates, in pixels. *)
Definition midpoint_pixel (lo hi : pyval) (extent : Z) : exc Z :=
  exc_bind (py_add lo hi) (fun sum =>
  exc_bind (py_div2 sum) (fun center_rel =>
  exc_bind (py_mul_int center_rel extent) py_int)).

(** [int(((bbox[i] + bbox[j]) / 2) * extent)]: one coordinate of the centre
    of a box, in pixels. *)
Definition center_pixel (bbox : pyval) (i j : nat) (extent : Z) : exc Z :=
  exc_bind (py_getitem bbox i) (fun lo =>
  exc_bind (py_getitem bbox j) (fun hi =>
  midpoint_pixel lo hi extent)).

(** [not bbox or len(bbox) != 4] *)
Definition bbox_invalid (bbox : pyval) : exc bool :=
  if negb (py_truthy bbox) then Ok true
  else exc_bind (py_len bbox) (fun n => Ok (negb (Nat.eqb n 4))).

(** [int(rel * extent)]: a relative coordinate in pixels. *)
Definition scale_pixel (rel : pyval) (extent : Z) : exc Z :=
  exc_bind (py_mul_int rel extent) py_int.

(** [int(height * c)] for a float constant [c] *)
Definition fraction_pixel (extent : Z) (c : float) : exc Z :=
  exc_bind (int_mul_float extent c) int_of_float.

(** The [if]/[elif] chain inside the [try] of [execute_action]; its value is
    [success]. *)
Definition execute_kind (action_data : pydict) (omni_elements : elements)
           (action_type : pyval) (width height : Z) : M bool :=
  if is_kind action_type "TAP" then
    let idx := dict_get action_data "element_index" in
    let target_element := find_element omni_elements idx in
    if negb (found target_element) then return_ true else
    let bbox := target_get target_element "bbox" PNone in
    invalid <- lift (bbox_invalid bbox) ;;
    if invalid : bool then return_ true else
    tap_x <- lift (center_pixel bbox 0 2 width) ;;
    tap_y <- lift (center_pixel bbox 1 3 height) ;;
    tap tap_x tap_y
  else if is_kind action_type "INPUT_TEXT" then
    let text_to_input := dict_get action_data "text" in
    let idx := dict_get action_data "element_index" in
    if py_is_none text_to_input then return_ true else
    (when negb (py_is_none idx) do
       let target_element := find_element omni_elements idx in
       if negb (found target_element) then return_ true else
       let bbox := target_get target_element "bbox" PNone in
       invalid <- lift (bbox_invalid bbox) ;;
       if invalid : bool then return_ true else
       tap_x <- lift (center_pixel bbox 0 2 width) ;;
       tap_y <- lift (center_pixel bbox 1 3 height) ;;
       tap_success <- tap tap_x tap_y ;;
       if negb tap_success then return_ true else
       sleep 0.5) ;;;
    input_text text_to_input
  else if is_kind action_type "SCROLL_DOWN" then
    let start_x := width / 2 in
    start_y <- lift (fraction_pixel height 0.8) ;;
    end_y <- lift (fraction_pixel height 0.2) ;;
    swipe start_x start_y start_x end_y (PInt 400)
  else if is_kind action_type "SCROLL_UP" then
    let start_x := width / 2 in
    start_y <- lift (fraction_pixel height 0.2) ;;
    end_y <- lift (fraction_pixel height 0.8) ;;
    swipe start_x start_y start_x end_y (PInt 400)
  else if is_kind action_type "SWIPE" then
    let sx_rel := dict_get action_data "start_x" in
    let sy_rel := dict_get action_data "start_y" in
    let ex_rel := dict_get action_data "end_x" in
    let ey_rel := dict_get action_data "end_y" in
    let duration := dict_get_default action_data "duration" (PInt 300) in
    if py_in PNone [sx_rel; sy_rel; ex_rel; ey_rel] then return_ true else
    sx <- lift (scale_pixel sx_rel width) ;;
    sy <- lift (scale_pixel sy_rel height) ;;
    ex <- lift (scale_pixel ex_rel width) ;;
    ey <- lift (scale_pixel ey_rel height) ;;
    swipe sx sy ex ey duration
  else if is_kind action_type "WAIT" then
    let duration := dict_get_default action_data "duration_seconds" config.DEFAULT_WAIT_TIME in
    wait duration ;;;
    ret true
  else if is_kind action_type "DONE" then
    return_ false
  else
    return_ true.

(** The body of [execute_action]. *)
Definition execute_body (action_data : pydict) (screen_dimensions : Z * Z)
           (omni_elements : elements) : M bool :=
  let action_type := dict_get action_data "action" in
  if negb (py_truthy action_type) then return_ false else
  let element_index := dict_get action_data "element_index" in
  (when py_in action_type [PStr "TAP"; PStr "INPUT_TEXT"] && negb (py_is_none element_index) do
     let target_element := find_element omni_elements element_index in
     when negb (found target_element) do return_ true) ;;;
  let '(width, height) := screen_dimensions in
  try_
    (success <- execute_kind action_data omni_elements action_type width height ;;
     (when success && negb (py_in action_type [PStr "WAIT"; PStr "DONE"]) do
        wait config.DEFAULT_WAIT_TIME) ;;;
     (when negb success do return_ true) ;;;
     return_ true)
    (fun _ => return_ true).

(** [execute_action(action_data, adb_controller, screen_dimensions, omni_elements)].
    The device is threaded through: the result pairs what the function
    returns (or raises) with the device after the call. *)
Definition execute_action (action_data : pydict) (adb_controller : ADBController)
           (screen_dimensions : Z * Z) (omni_elements : elements)
  : exc bool * ADBController :=
  function (execute_body action_data screen_dimensions omni_elements) adb_controller.

(* ===================================================================== *)
(** ** main.py: the automation loop *)
(* ===================================================================== *)

Record HistoryEntry : Type := mkEntry {
  step : nat;
  summary : string;
  reasoning : pyval;
  action_data : pydict
}.

(** What [main] asks of the outside at each step: the device for a
    screenshot, the vision service, the language model.  The step number
    stands for whatever else an answer depends on (the screen, the
    screenshot file, the model's state). *)
Record Collaborators : Type := mkCollaborators {
  (** [adb.take_screenshot(screenshot_path)] at a step *)
  take_screenshot : nat -> bool;
  (** [call_omniparser_v2(screenshot_path)]: the elements and the path of
      the annotated image, either of which may be [None] *)
  call_omniparser_v2 : nat -> elements * option string;
  (** [get_llm_action(task, omni_elements, action_history, screenshot_path,
      last_annotated_screenshot_path)]: an action and its reasoning, or
      [(None, None)] *)
  get_llm_action : nat -> elements -> list HistoryEntry -> option string
                   -> option (pydict * pyval)
}.

(** What [main] does that can be seen from outside, in order. *)
Inductive Event : Type :=
| EvScreenshot (step : nat) (ok : bool)
| EvOmniparser (step : nat)
| EvLLM (step : nat) (ok : bool)
| EvLoopWarning (step : nat)
| EvExecute (step : nat) (action : pydict) (should_continue : bool)
| EvAppend (entry : HistoryEntry).

(** The variables of the loop, the device and the trace. *)
Record LoopState : Type := mkState {
  adb : ADBController;
  action_history : list HistoryEntry;
  last_action_summary : option string;
  trace : list Event
}.

(** The ways the loop ends: the three [break]s, the [else] of the [for], and
    an exception leaving [main]. *)
Inductive Exit : Type :=
| ScreenshotFailed
| LLMFailed
| ExecutorStopped
| MaxStepsReached
| Crashed (e : pyexn).

Inductive StepResult : Type :=
| Continue (st : LoopState)
| Break (why : Exit) (st : LoopState).

Definition emit (st : LoopState) (evs : list Event) : LoopState :=
  mkState (adb st) (action_history st) (last_action_summary st) (trace st ++ evs).

(** [current_action_summary == last_action_summary] *)
Definition same_summary (current : string) (last : option string) : bool :=
  match last with
  | Some s => String.eqb current s
  | None => false
  end.

(** [annotated_img_path] when it is true, else [None] *)
Definition annotated_or_none (annotated_img_path : option string) : option string :=
  match annotated_img_path with
  | Some (String c s) => Some (String c s)
  | _ => None
  end.

(** One iteration of [for step in range(config.MAX_STEPS)]. *)
Definition loop_body (env : Collaborators) (screen_dims : Z * Z)
           (step : nat) (st : LoopState) : StepResult :=
  let current_step := (step + 1)%nat in
  (* 1. Take Screenshot *)
  if negb (take_screenshot env current_step)
  then Break ScreenshotFailed (emit st [EvScreenshot current_step false])
  else
  let st := emit st [EvScreenshot current_step true] in
  (* 2. Analyze Screenshot *)
  let '(omni_elements, annotated_img_path) := call_omniparser_v2 env current_step in
  let st := emit st [EvOmniparser current_step] in
  let last_annotated_screenshot_path := annotated_or_none annotated_img_path in
  (* 3. Get Action from LLM *)
  match get_llm_action env current_step omni_elements (action_history st)
                       last_annotated_screenshot_path with
  | None => Break LLMFailed (emit st [EvLLM current_step false])
  | Some (llm_action, llm_reasoning) =>
      let st := emit st [EvLLM current_step true] in
      (* Basic Loop Detection *)
      match summarize_action llm_action omni_elements with
      | Raise e => Break (Crashed e) st
      | Ok current_action_summary =>
          let st := if same_summary current_action_summary (last_action_summary st)
                    then emit st [EvLoopWarning current_step] else st in
          (* 4. Execute Action *)
          match execute_action llm_action (adb st) screen_dims omni_elements with
          | (Raise e, adb') =>
              Break (Crashed e)
                    (mkState adb' (action_history st) (Some current_action_summary) (trace st))
          | (Ok should_continue, adb') =>
              (* 5. Update History *)
              let history_entry :=
                mkEntry current_step current_action_summary llm_reasoning llm_action in
              let st :=
                mkState adb'
                  (list_slice_from (- config.ACTION_HISTORY_LENGTH)
                                   (action_history st ++ [history_entry]))
                  (Some current_action_summary)
                  (trace st ++ [EvExecute current_step llm_action should_continue;
                                EvAppend history_entry]) in
              if negb should_continue then Break ExecutorStopped st else Continue st
          end
      end
  end.

(** [for step in steps: body  else: ...] *)
Fixpoint for_steps (env : Collaborators) (screen_dims : Z * Z)
         (steps : list nat) (st : LoopState) : Exit * LoopState :=
  match steps with
  | [] => (MaxStepsReached, st)
  | step :: rest =>
      match loop_body env screen_dims step st with
      | Continue st' => for_steps env screen_dims rest st'
      | Break why st' => (why, st')
      end
  end.

(** The state before the first step. *)
Definition initial_state (adb : ADBController) : LoopState :=
  mkState adb [] None [].

(** The loop cut after [n] iterations at most. *)
Definition run_steps (env : Collaborators) (screen_dims : Z * Z)
           (adb : ADBController) (n : nat) : Exit * LoopState :=
  for_steps env screen_dims (seq 0 n) (initial_state adb).

(** The automation loop of [main]. *)
Definition agent_loop (env : Collaborators) (screen_dims : Z * Z)
           (adb : ADBController) : Exit * LoopState :=
  run_steps env screen_dims adb config.MAX_STEPS.

(* ===================================================================== *)
(** ** What the statements speak of *)
(* ===================================================================== *)

(** Definitions used to state and prove the properties below: how a trace
    is read, what an iteration does, the invariants of the loop. *)

(** The action kinds on which the executor tells the loop to stop. *)
Definition stops (action_data : pydict) : bool :=
  let action_type := dict_get action_data "action" in
  negb (py_truthy action_type) || is_kind action_type "DONE".


Definition finish (should_continue : bool) (st : LoopState) : StepResult :=
  if should_continue then Continue st else Break ExecutorStopped st.

(** The three ways an iteration goes.  Neither [summarize_action] nor
    [execute_action] raises, so no iteration ends in [Crashed]. *)
Inductive iteration (env : Collaborators) (screen_dims : Z * Z) (s : nat) (st : LoopState)
  : StepResult -> Prop :=
| iter_no_screenshot :
    take_screenshot env (s + 1) = false ->
    iteration env screen_dims s st
              (Break ScreenshotFailed (emit st [EvScreenshot (s + 1) false]))
| iter_no_action omni_elements annotated_img_path :
    take_screenshot env (s + 1) = true ->
    call_omniparser_v2 env (s + 1) = (omni_elements, annotated_img_path) ->
    get_llm_action env (s + 1) omni_elements (action_history st)
                   (annotated_or_none annotated_img_path) = None ->
    iteration env screen_dims s st
              (Break LLMFailed
                     (emit st [EvScreenshot (s + 1) true; EvOmniparser (s + 1); EvLLM (s + 1) false]))
| iter_executed omni_elements annotated_img_path llm_action llm_reasoning
                current_action_summary should_continue adb' :
    take_screenshot env (s + 1) = true ->
    call_omniparser_v2 env (s + 1) = (omni_elements, annotated_img_path) ->
    get_llm_action env (s + 1) omni_elements (action_history st)
                   (annotated_or_none annotated_img_path)
    = Some (llm_action, llm_reasoning) ->
    summarize_action llm_action omni_elements = Ok current_action_summary ->
    execute_action llm_action (adb st) screen_dims omni_elements = (Ok should_continue, adb') ->
    let history_entry := mkEntry (s + 1) current_action_summary llm_reasoning llm_action in
    iteration env screen_dims s st
              (finish should_continue
                 (mkState adb'
                    (list_slice_from (- config.ACTION_HISTORY_LENGTH)
                                     (action_history st ++ [history_entry]))
                    (Some current_action_summary)
                    (trace st
                     ++ [EvScreenshot (s + 1) true; EvOmniparser (s + 1); EvLLM (s + 1) true]
                     ++ (if same_summary current_action_summary (last_action_summary st)
                         then [EvLoopWarning (s + 1)] else [])
                     ++ [EvExecute (s + 1) llm_action should_continue;
                         EvAppend history_entry]))).

Definition event_step (ev : Event) : nat :=
  match ev with
  | EvScreenshot s _ | EvOmniparser s | EvLLM s _ | EvLoopWarning s | EvExecute s _ _ => s
  | EvAppend entry => step entry
  end.

(** The history entries appended, oldest first. *)
Fixpoint appended (tr : list Event) : list HistoryEntry :=
  match tr with
  | [] => []
  | EvAppend entry :: rest => entry :: appended rest
  | _ :: rest => appended rest
  end.

(** The last [k] elements of a list. *)
Definition last_k {A} (k : nat) (l : list A) : list A :=
  skipn (List.length l - k) l.

Definition history_length : nat := Z.to_nat config.ACTION_HISTORY_LENGTH.

(** Before iteration [s] (counted from 0) the history is the last entries
    appended, and the entries appended are those of the steps 1 to [s]. *)
Definition history_inv (s : nat) (st : LoopState) : Prop :=
  action_history st = last_k history_length (appended (trace st))
  /\ map step (appended (trace st)) = seq 1 s.

Definition history_final (st : LoopState) : Prop :=
  action_history st = last_k history_length (appended (trace st))
  /\ map step (appended (trace st)) = seq 1 (List.length (appended (trace st))).

Definition is_screenshot (ev : Event) : bool :=
  match ev with EvScreenshot _ _ => true | _ => false end.

Definition is_execute (ev : Event) : bool :=
  match ev with EvExecute _ _ _ => true | _ => false end.

(** The steps begun (each begins with a screenshot) and the steps whose
    action was executed. *)
Definition steps_begun (tr : list Event) : nat := List.length (filter is_screenshot tr).
Definition steps_executed (tr : list Event) : nat := List.length (filter is_execute tr).

Definition count_inv (s : nat) (st : LoopState) : Prop :=
  steps_begun (trace st) = s /\ steps_executed (trace st) = s.

(** What the trace shows when the loop is left by a [break]. *)
Definition stop_reason (why : Exit) (tr : list Event) : Prop :=
  match why with
  | ScreenshotFailed => exists k, In (EvScreenshot k false) tr
  | LLMFailed => exists k, In (EvLLM k false) tr
  | ExecutorStopped => exists k llm_action, In (EvExecute k llm_action false) tr
  | MaxStepsReached | Crashed _ => False
  end.

Definition count_final (N : nat) (why : Exit) (st : LoopState) : Prop :=
  (steps_begun (trace st) <= N)%nat /\ (steps_executed (trace st) <= N)%nat
  /\ stop_reason why (trace st).

Definition no_failure_inv (s : nat) (st : LoopState) : Prop :=
  forall ev, In ev (trace st) -> (event_step ev <= s)%nat /\ forall k, ev <> EvScreenshot k false.

Definition failure_final (why : Exit) (st : LoopState) : Prop :=
  forall k, In (EvScreenshot k false) (trace st) ->
            why = ScreenshotFailed
            /\ exists before, trace st = before ++ [EvScreenshot k false]
                              /\ forall ev, In ev before -> (event_step ev < k)%nat.

(** The summary of the action of step [k]: that of the history entry
    appended at that step. *)
Definition summary_at (tr : list Event) (k : nat) : option string :=
  option_map summary (find (fun entry => Nat.eqb (step entry) k) (appended tr)).

Definition is_warning (ev : Event) : bool :=
  match ev with EvLoopWarning _ => true | _ => false end.

Definition without_warnings (tr : list Event) : list Event :=
  filter (fun ev => negb (is_warning ev)) tr.

(** The state with another value of [last_action_summary]. *)
Definition with_last (st : LoopState) (last : option string) : LoopState :=
  mkState (adb st) (action_history st) last (trace st).

(** Two iterations that go the same way: the same exit from the loop body,
    the same device, the same history, the same trace but for warnings. *)
Definition same_course (r r' : StepResult) : Prop :=
  match r, r' with
  | Continue st, Continue st' =>
      adb st = adb st' /\ action_history st = action_history st'
      /\ without_warnings (trace st) = without_warnings (trace st')
  | Break why st, Break why' st' =>
      why = why' /\ adb st = adb st' /\ action_history st = action_history st'
      /\ without_warnings (trace st) = without_warnings (trace st')
  | _, _ => False
  end.

Definition steps_within (lo hi : nat) (tr : list Event) : Prop :=
  forall ev, In ev tr -> (lo <= event_step ev <= hi)%nat.

(** What the detector has flagged so far. *)
Definition flags_repeats (tr : list Event) : Prop :=
  forall k, In (EvLoopWarning (S k)) tr
            <-> exists x, summary_at tr (S k) = Some x /\ summary_at tr k = Some x.

Definition detector_inv (s : nat) (st : LoopState) : Prop :=
  steps_within 1 s (trace st)
  /\ last_action_summary st = summary_at (trace st) s
  /\ flags_repeats (trace st).

Definition detector_final (st : LoopState) : Prop :=
  (exists s, steps_within 1 s (trace st)) /\ flags_repeats (trace st).

(** The collaborators with the vision service answering the empty list
    where it answered [None]. *)
Definition empty_for_none (env : Collaborators) : Collaborators :=
  mkCollaborators
    (take_screenshot env)
    (fun k => let '(omni_elements, annotated_img_path) := call_omniparser_v2 env k in
              (match omni_elements with
               | None => Some []
               | Some l => Some l
               end, annotated_img_path))
    (get_llm_action env).

(* ===================================================================== *)
(** ** Reading what the executor did *)
(* ===================================================================== *)


Definition is_tap (c : call) : bool := match c with Tap _ _ => true | _ => false end.
Definition is_swipe (c : call) : bool := match c with Swipe _ _ _ _ _ => true | _ => false end.
Definition is_input_text (c : call) : bool := match c with InputText _ => true | _ => false end.

Definition count_calls (p : call -> bool) (l : list call) : nat := List.length (filter p l).



(* ===================================================================== *)
(** ** adb_controller.py: the text sent to the shell, the cached screen size *)
(* ===================================================================== *)

(** [s.replace(old, new)] for a pattern [old] of one character *)
Fixpoint replace_char (old : ascii) (new : string) (s : string) : string :=
  match s with
  | EmptyString => EmptyString
  | String c rest =>
      if Ascii.eqb c old then new +s+ replace_char old new rest
      else String c (replace_char old new rest)
  end.

(** [escaped_text] of [input_text]: the eight replacements, in the order of
    the source. *)
Definition escape_text (text : string) : string :=
  replace_char "|" "\|"
    (replace_char "*" "\*"
      (replace_char "?" "\?"
        (replace_char ">" "\>"
          (replace_char "<" "\<"
            (replace_char "&" "\&"
              (replace_char " " "%s"
                (replace_char "'" "'\''" text))))))).

(** The command [input_text] hands to [device.shell]. *)
Definition input_text_command (text : string) : list string :=
  ["input"; "text"; escape_text text].

(** What one character becomes when a text is escaped in one pass. *)
Definition escape_char (c : ascii) : string :=
  if Ascii.eqb c "'" then "'\''"
  else if Ascii.eqb c " " then "%s"
  else if existsb (Ascii.eqb c) ["&"; "<"; ">"; "?"; "*"; "|"]%char
       then String "\" (String c EmptyString)
  else String c EmptyString.

Fixpoint escape_chars (s : string) : string :=
  match s with
  | EmptyString => EmptyString
  | String c rest => escape_char c +s+ escape_chars rest
  end.

(** The characters [input_text] rewrites. *)
Definition is_special (c : ascii) : bool :=
  existsb (Ascii.eqb c) ["'"; " "; "&"; "<"; ">"; "?"; "*"; "|"]%char.

Fixpoint str_forallb (p : ascii -> bool) (s : string) : bool :=
  match s with
  | EmptyString => true
  | String c rest => p c && str_forallb p rest
  end.

(** The part of an [ADBController] that [get_screen_dimensions] uses: the
    cached dimensions ([None] after [__init__]) and the number of times the
    device was asked for its window size. *)
Record ScreenInfo : Type := mkScreenInfo {
  _screen_dimensions : option (Z * Z);
  window_size_calls : nat
}.

(** [get_screen_dimensions()]: [window_size n] is what the device answers
    to the [n]-th request, [None] when the request raises. *)
Definition get_screen_dimensions (window_size : nat -> option (Z * Z)) (self : ScreenInfo)
  : option (Z * Z) * ScreenInfo :=
  match _screen_dimensions self with
  | Some dims => (Some dims, self)
  | None =>
      match window_size (window_size_calls self) with
      | Some (width, height) =>
          (Some (width, height),
           mkScreenInfo (Some (width, height)) (S (window_size_calls self)))
      | None => (None, mkScreenInfo None (S (window_size_calls self)))
      end
  end.

(** [n] calls of [get_screen_dimensions] in a row: their results and the
    controller after the last. *)
Fixpoint get_screen_dimensions_times (window_size : nat -> option (Z * Z)) (n : nat)
         (self : ScreenInfo) : list (option (Z * Z)) * ScreenInfo :=
  match n with
  | O => ([], self)
  | S n' =>
      let '(r, self') := get_screen_dimensions window_size self in
      let '(rs, self'') := get_screen_dimensions_times window_size n' self' in
      (r :: rs, self'')
  end.

(* ===================================================================== *)
(** ** llm_handler.py: reading the model's answer *)
(* ===================================================================== *)

(** [s.startswith(prefix)] *)
Fixpoint startswith (prefix s : string) : bool :=
  match prefix, s with
  | EmptyString, _ => true
  | String p prefix', String c s' => Ascii.eqb p c && startswith prefix' s'
  | String _ _, EmptyString => false
  end.

(** [s[n:]] for [n >= 0] *)
Fixpoint str_drop (n : nat) (s : string) : string :=
  match n, s with
  | O, _ => s
  | S n', String _ s' => str_drop n' s'
  | S _, EmptyString => EmptyString
  end.

(** [s.endswith(suffix)] *)
Definition endswith (suffix s : string) : bool :=
  (String.length suffix <=? String.length s)%nat
  && String.eqb (str_drop (String.length s - String.length suffix) s) suffix.

(** [s[:-n]] for [n > 0] *)
Definition str_drop_end (n : nat) (s : string) : string :=
  substring 0 (String.length s - n) s.

Definition fence_open : string := "```json".
Definition fence_close : string := "```".

(** The text [get_llm_action] hands to [json.loads]: the answer stripped,
    without an opening fence, without a closing fence, stripped again. *)
Definition clean_response (response_text : string) : string :=
  let raw_response_text := py_strip response_text in
  let raw_response_text :=
    if startswith fence_open raw_response_text then str_drop 7 raw_response_text
    else raw_response_text in
  let raw_response_text :=
    if endswith fence_close raw_response_text then str_drop_end 3 raw_response_text
    else raw_response_text in
  py_strip raw_response_text.

(** What [get_llm_action] returns for the value [json.loads] gave: the
    action and the reasoning, or [None] for [(None, None)].  A value that is
    no dictionary has no [get]; the [AttributeError] is caught by the
    function's [except Exception]. *)
Definition extract_action (full_response_json : pyval) : option (pydict * pyval) :=
  match full_response_json with
  | PDict d =>
      let action_json := dict_get d "action" in
      let reasoning_str := dict_get_default d "reasoning" (PStr "[No reasoning provided]") in
      match action_json with
      | PDict action =>
          if negb (py_truthy (dict_get action "action")) then None
          else Some (action, reasoning_str)
      | _ => None
      end
  | _ => None
  end.

(** Every execution that returned [False] was that of a ['DONE']. *)
Definition executes_done_only (st : LoopState) : Prop :=
  forall k llm_action,
    In (EvExecute k llm_action false) (trace st) ->
    dict_get llm_action "action" = PStr "DONE".


(* ===================================================================== *)
(** ** omniparser_sim.py: reading the elements *)
(* ===================================================================== *)

From Stdlib Require Import Sorting.Sorted Sorting.Permutation.

(** The longest prefix of characters satisfying [p], and what follows. *)
Fixpoint span (p : ascii -> bool) (cs : list ascii) : list ascii * list ascii :=
  match cs with
  | c :: rest =>
      if p c then let '(taken, remaining) := span p rest in (c :: taken, remaining)
      else ([], cs)
  | [] => ([], [])
  end.

Fixpoint drop_prefix (prefix cs : list ascii) : option (list ascii) :=
  match prefix, cs with
  | [], _ => Some cs
  | p :: prefix', c :: cs' => if Ascii.eqb p c then drop_prefix prefix' cs' else None
  | _ :: _, [] => None
  end.

Definition newline : ascii := ascii_of_nat 10.
Definition not_newline (c : ascii) : bool := negb (Ascii.eqb c newline).

(** One match of the pattern [icon\s+(\d+):\s+({.*?})$] (with [re.MULTILINE])
    at the head of [cs]: the two groups and the length of the match.  Every
    repetition but the last is greedy over a class that excludes what must
    follow it, and the lazy [.*?], which stays on the line, must reach a
    closing brace that ends the line; so the match, if any, is the one read
    from left to right. *)
Definition match_icon (cs : list ascii) : option (string * string * nat) :=
  match drop_prefix (list_ascii_of_string "icon") cs with
  | None => None
  | Some after_icon =>
      let '(blanks_1, after_blanks_1) := span isspace after_icon in
      let '(digits, after_digits) := span isdigit after_blanks_1 in
      match blanks_1, digits, after_digits with
      | _ :: _, _ :: _, colon :: after_colon =>
          if negb (Ascii.eqb colon ":") then None else
          let '(blanks_2, after_blanks_2) := span isspace after_colon in
          match blanks_2, after_blanks_2 with
          | _ :: _, brace :: after_brace =>
              if negb (Ascii.eqb brace "{") then None else
              let '(line, _) := span not_newline after_brace in
              match rev line with
              | closing :: _ =>
                  if Ascii.eqb closing "}"
                  then Some (string_of_list_ascii digits,
                             string_of_list_ascii ("{"%char :: line),
                             (4 + List.length blanks_1 + List.length digits + 1
                              + List.length blanks_2 + 1 + List.length line)%nat)
                  else None
              | [] => None
              end
          | _, _ => None
          end
      | _, _, _ => None
      end
  end.

(** [pattern.findall]: the matches from left to right, each search starting
    where the match before ended; [skip] counts the characters of the
    current match still to pass. *)
Fixpoint findall_icons (skip : nat) (cs : list ascii) : list (string * string) :=
  match cs with
  | [] => []
  | _ :: rest =>
      match skip with
      | S skip' => findall_icons skip' rest
      | O =>
          match match_icon cs with
          | Some (index_str, dict_str, len) =>
              (index_str, dict_str) :: findall_icons (len - 1) rest
          | None => findall_icons 0 rest
          end
      end
  end.

(** What [ast.literal_eval] does on a text: a value, a [ValueError] or
    [SyntaxError] (which the parser catches), or another exception. *)
Inductive literal_outcome : Type :=
| Evaluated (v : pyval)
| Malformed
| Failed (e : pyexn).

(** [d[k] = v]: in place when the key is there, at the end otherwise. *)
Fixpoint dict_set (d : pydict) (k : string) (v : pyval) : pydict :=
  match d with
  | [] => [(k, v)]
  | (k', v') :: rest =>
      if String.eqb k k' then (k', v) :: rest else (k', v') :: dict_set rest k v
  end.

(** The body of the [for] of [parse_omniparser_output_string]: the elements
    of the matches that parse, in the order of the matches.  An [index_str]
    that [int] refuses and a dictionary text that is malformed are skipped;
    a value that is no dictionary has no item assignment with a string key,
    and the [TypeError] is not caught. *)
Fixpoint collect_elements (literal_eval : string -> literal_outcome)
         (matches : list (string * string)) : exc (list pydict) :=
  match matches with
  | [] => Ok []
  | (index_str, dict_str) :: rest =>
      match int_of_str index_str with
      | Raise _ => collect_elements literal_eval rest
      | Ok index =>
          match literal_eval dict_str with
          | Malformed => collect_elements literal_eval rest
          | Failed e => Raise e
          | Evaluated (PDict element_data) =>
              exc_bind (collect_elements literal_eval rest)
                       (fun elements => Ok (dict_set element_data "index" (PInt index) :: elements))
          | Evaluated _ => Raise TypeError
          end
      end
  end.

(** The sort key [x['index']] of an element of the parser. *)
Definition index_of (element : pydict) : Z :=
  match dict_get element "index" with
  | PInt z => z
  | _ => 0
  end.

(** [elements.sort(key=lambda x: x['index'])]: a stable sort; each element
    goes after those already placed whose index is not larger. *)
Fixpoint insert_by_index (element : pydict) (sorted : list pydict) : list pydict :=
  match sorted with
  | [] => [element]
  | x :: rest =>
      if index_of element <? index_of x then element :: x :: rest
      else x :: insert_by_index element rest
  end.

Definition sort_by_index (elements : list pydict) : list pydict :=
  fold_left (fun sorted element => insert_by_index element sorted) elements [].

(** [parse_omniparser_output_string(output_string)], with [ast.literal_eval]
    as an argument. *)
Definition parse_omniparser_output_string (literal_eval : string -> literal_outcome)
           (output_string : string) : exc (list pydict) :=
  match output_string with
  | EmptyString => Ok []
  | _ =>
      let matches := findall_icons 0 (list_ascii_of_string (py_strip output_string)) in
      exc_bind (collect_elements literal_eval matches)
               (fun elements => Ok (sort_by_index elements))
  end.

(** An element as the parser leaves it: its ['index'] is an int. *)
Definition has_index (element : pydict) : Prop :=
  dict_get element "index" = PInt (index_of element).

Definition same_index (z : Z) (element : pydict) : bool := index_of element =? z.


(** A line as the pattern reads it, [icon <index>: {<body>}], from its index
    text and the inside of its braces; the two groups the pattern takes from
    it; and lines joined by newlines. *)
Definition icon_line (entry : string * string) : string :=
  "icon " +s+ fst entry +s+ ": {" +s+ snd entry +s+ "}".

Definition line_groups (entry : string * string) : string * string :=
  (fst entry, "{" +s+ snd entry +s+ "}").

Fixpoint join_lines (lines : list string) : string :=
  match lines with
  | [] => EmptyString
  | line :: rest =>
      match rest with
      | [] => line
      | _ :: _ => line +s+ String newline (join_lines rest)
      end
  end.

(** The index text is one or more digits, and the body stays on its line. *)
Definition entry_ok (entry : string * string) : bool :=
  negb (String.eqb (fst entry) EmptyString)
  && str_forallb isdigit (fst entry)
  && str_forallb not_newline (snd entry).

(** Nothing, or a character that [p] refuses, comes next. *)
Definition stops_span (p : ascii -> bool) (cs : list ascii) : Prop :=
  match cs with
  | [] => True
  | c :: _ => p c = false
  end.

(* ===================================================================== *)
(** ** llm_handler.py: the prompt *)
(* ===================================================================== *)

(** The double quote and the newline, as strings. *)
Definition dq : string := String (ascii_of_nat 34) EmptyString.
Definition nl : string := String newline EmptyString.

(** The template of the prompt up to the task. *)
Definition prompt_before_task : string :=
  String.concat nl
    [EmptyString;
     "You are an expert mobile automation agent. Your goal is to perform the following task on an Android device:";
     ("TASK: " +s+ dq)].

(** The template between the task and the history. *)
Definition prompt_before_history : string :=
  String.concat nl
    [dq;
     EmptyString;
     "Based on the current screen elements AND the recent action history provided below, decide the *single best next action* to progress towards the task. Consider the history to avoid loops and redundant actions.";
     EmptyString;
     EmptyString].

(** The template after the screen elements. *)
Definition prompt_after_screen : string :=
  String.concat nl
    [EmptyString;
     EmptyString;
     "Available Actions:";
     "1. TAP: Tap an interactive element. Requires 'element_index'.";
     "2. INPUT_TEXT: Type text. Requires 'text'. Optionally specify 'element_index' to tap first (e.g., for text fields). If no index is specified, it assumes the field is already focused.";
     "3. SCROLL_DOWN: Scroll the screen down (equivalent to a swipe up). Useful if needed element is likely below.";
     "4. SCROLL_UP: Scroll the screen up (equivalent to a swipe down). Useful if needed element is likely above.";
     "5. SWIPE: Perform a custom swipe. Requires normalized start/end coordinates 'start_x', 'start_y', 'end_x', 'end_y' (0.0 to 1.0) and 'duration' (milliseconds). Use sparingly.";
     "6. WAIT: Wait for a short period (e.g., for content to load). Requires 'duration_seconds'.";
     "7. DONE: Use this action ONLY when the TASK is fully completed according to the initial request.";
     EmptyString;
     "Constraints:";
     "- Choose only ONE action.";
     "- Provide a brief 'reasoning' explaining *why* you chose this action based on the task, current screen, and history.";
     "- Prioritize interactive elements (interactivity=True) for TAPs.";
     "- Ensure the chosen element is relevant to the task.";
     "- If you need to type text, first TAP the input field (if not focused), then use INPUT_TEXT. This might take two steps.";
     "- If the screen seems unchanged after an action, consider scrolling or waiting. If stuck, consider if the task is achievable or if you should use DONE (if impossible).";
     EmptyString;
     "Output Format:";
     "Return ONLY a valid JSON object containing the 'action' object and a 'reasoning' string. Do not include any other text, explanations, or markdown formatting.";
     EmptyString;
     "Example:";
     "{";
     ("  " +s+ dq +s+ "action" +s+ dq +s+ ": { " +s+ dq +s+ "action" +s+ dq +s+ ": " +s+ dq +s+ "TAP" +s+ dq +s+ ", " +s+ dq +s+ "element_index" +s+ dq +s+ ": 15 },");
     ("  " +s+ dq +s+ "reasoning" +s+ dq +s+ ": " +s+ dq +s+ "Tapping element 15 'Settings icon' to navigate to the settings page as requested by the task." +s+ dq);
     "}";
     "{";
     ("  " +s+ dq +s+ "action" +s+ dq +s+ ": { " +s+ dq +s+ "action" +s+ dq +s+ ": " +s+ dq +s+ "INPUT_TEXT" +s+ dq +s+ ", " +s+ dq +s+ "element_index" +s+ dq +s+ ": 24, " +s+ dq +s+ "text" +s+ dq +s+ ": " +s+ dq +s+ "search query" +s+ dq +s+ " },");
     ("  " +s+ dq +s+ "reasoning" +s+ dq +s+ ": " +s+ dq +s+ "Tapped search bar (element 24) in previous step, now inputting the required search query." +s+ dq);
     "}";
     "{";
     ("  " +s+ dq +s+ "action" +s+ dq +s+ ": { " +s+ dq +s+ "action" +s+ dq +s+ ": " +s+ dq +s+ "SCROLL_DOWN" +s+ dq +s+ " },");
     ("  " +s+ dq +s+ "reasoning" +s+ dq +s+ ": " +s+ dq +s+ "The target element 'Submit button' is not visible on the current screen, scrolling down to find it." +s+ dq);
     "}";
     "{";
     ("  " +s+ dq +s+ "action" +s+ dq +s+ ": { " +s+ dq +s+ "action" +s+ dq +s+ ": " +s+ dq +s+ "DONE" +s+ dq +s+ " },");
     ("  " +s+ dq +s+ "reasoning" +s+ dq +s+ ": " +s+ dq +s+ "The confirmation message 'Email Sent' is visible, indicating the task is complete." +s+ dq);
     "}";
     EmptyString;
     "Choose the next action and provide your reasoning:";
     EmptyString].

(** What the [for] over [omni_elements] adds for one element.  The
    subscript [elem['index']] raises [KeyError] when the key is missing;
    the other keys are read with [get] and a default. *)
Definition describe_element (elem : pydict) : exc string :=
  match dict_lookup "index" elem with
  | None => Raise KeyError
  | Some index =>
      Ok ("- Element " +s+ py_str index +s+ " "
          +s+ "(" +s+ py_str (dict_get_default elem "type" (PStr "unknown")) +s+ "): "
          +s+ "Content='"
          +s+ py_strip (str_prefix 50 (py_str (dict_get_default elem "content" (PStr "N/A"))))
          +s+ "...' "
          +s+ "BBox=" +s+ py_str (dict_get_default elem "bbox" (PStr "N/A")) +s+ " "
          +s+ "Interactive=" +s+ py_str (dict_get_default elem "interactivity" (PBool false))
          +s+ nl)
  end.

Fixpoint describe_elements (screen_description : string) (omni_elements : list pydict)
  : exc string :=
  match omni_elements with
  | [] => Ok screen_description
  | elem :: rest =>
      exc_bind (describe_element elem)
               (fun line => describe_elements (screen_description +s+ line) rest)
  end.

Definition screen_description (omni_elements : elements) : exc string :=
  match or_empty omni_elements with
  | [] => Ok ("Current screen elements:" +s+ nl
              +s+ "(No elements detected or Omniparser failed)" +s+ nl)
  | elem :: rest => describe_elements ("Current screen elements:" +s+ nl) (elem :: rest)
  end.

(** The [for] over [enumerate(relevant_history)], from the pair of index
    [i] on. *)
Fixpoint describe_history (history_description : string) (i : Z)
         (relevant_history : list HistoryEntry) : string :=
  match relevant_history with
  | [] => history_description
  | entry :: rest =>
      describe_history
        (history_description +s+ str_int (i + 1) +s+ ". Action: " +s+ summary entry +s+ nl
         +s+ "   Reasoning: " +s+ py_str (reasoning entry) +s+ nl)
        (i + 1) rest
  end.

Definition history_description (action_history : list HistoryEntry) : string :=
  match action_history with
  | [] => "Recent Action History (Oldest to Newest):" +s+ nl
          +s+ "(No actions taken yet)" +s+ nl
  | _ :: _ =>
      let relevant_history :=
        list_slice_from (- config.ACTION_HISTORY_LENGTH) action_history in
      describe_history ("Recent Action History (Oldest to Newest):" +s+ nl) 0
                       relevant_history
  end.

(** [format_prompt(task_description, omni_elements, action_history)] *)
Definition format_prompt (task_description : string) (omni_elements : elements)
           (action_history : list HistoryEntry) : exc string :=
  exc_bind (screen_description omni_elements) (fun screen_description =>
  let history_description := history_description action_history in
  Ok (prompt_before_task +s+ task_description +s+ prompt_before_history
      +s+ history_description +s+ nl +s+ screen_description +s+ prompt_after_screen)).


(* ===================================================================== *)
(** ** Scenarios *)
(* ===================================================================== *)

(** Concrete devices, screens and collaborators on which the properties
    are instantiated. *)

Definition all_accepting : ADBController := mkADB (fun _ => true) [].

Definition submit_button : pydict :=
  [("type", PStr "text"); ("bbox", PList [PInt 0; PInt 0; PInt 1; PInt 1]);
   ("interactivity", PBool true); ("content", PStr "Submit"); ("index", PInt 0)].



(** Scenario: the model answers [WAIT] with 2 seconds at every step. *)
Definition wait_2 : pydict := [("action", PStr "WAIT"); ("duration_seconds", PInt 2)].

Definition always_wait : Collaborators :=
  mkCollaborators (fun _ => true)
                  (fun _ => (None, None))
                  (fun _ _ _ _ => Some (wait_2, PStr "wait for the page")).

(** Scenario: one button on the screen; the model taps it, then says it is
    done. *)
Definition tap_then_done : Collaborators :=
  mkCollaborators
    (fun _ => true)
    (fun _ => (Some [submit_button], Some "annotated.png"))
    (fun k _ _ _ =>
       if Nat.eqb k 1
       then Some ([("action", PStr "TAP"); ("element_index", PInt 0)], PStr "tap Submit")
       else Some ([("action", PStr "DONE")], PStr "submitted")).

(** Scenario: the screenshot fails at step 3. *)
Definition screenshot_fails_at_3 : Collaborators :=
  mkCollaborators (fun k => negb (Nat.eqb k 3))
                  (fun _ => (None, None))
                  (fun _ _ _ _ => Some (wait_2, PStr "wait for the page")).

(** A device that refuses the first primitive and accepts the others. *)
Definition refuses_first_call : ADBController := mkADB (fun n => negb (Nat.eqb n 0)) [].

(** What the vision service writes for a screen with two elements, the
    larger index first. *)
Definition two_icons_text : string :=
  "icon 3: {'type': 'icon', 'content': 'Settings'}
icon 0: {'type': 'text', 'content': 'Submit'}".

(** [ast.literal_eval] on the two dictionary texts of [two_icons_text]; any
    other text is taken as malformed. *)
Definition literal_eval_two_icons (text : string) : literal_outcome :=
  if String.eqb text "{'type': 'icon', 'content': 'Settings'}"
  then Evaluated (PDict [("type", PStr "icon"); ("content", PStr "Settings")])
  else if String.eqb text "{'type': 'text', 'content': 'Submit'}"
  then Evaluated (PDict [("type", PStr "text"); ("content", PStr "Submit")])
  else Malformed.

Definition two_icons : list pydict :=
  [[("type", PStr "text"); ("content", PStr "Submit"); ("index", PInt 0)];
   [("type", PStr "icon"); ("content", PStr "Settings"); ("index", PInt 3)]].

Definition two_entries : list (string * string) :=
  [("3", "'type': 'icon', 'content': 'Settings'");
   ("0", "'type': 'text', 'content': 'Submit'")].

(** Six entries of history, as the steps 1 to 6 would record them. *)
Definition wait_entry (s : nat) : HistoryEntry :=
  mkEntry s "Action: WAIT" (PStr "Waiting for the page to load.") wait_2.

Definition five_entries : list HistoryEntry := map wait_entry [2; 3; 4; 5; 6]%nat.

(* ===================================================================== *)
(** ** Properties of the executor *)
(* ===================================================================== *)

Lemma is_kind_true (v : pyval) (kind : string) :
  is_kind v kind = true -> v = PStr kind.
Proof.
  unfold is_kind. destruct v; simpl; try discriminate.
  intros H. apply String.eqb_eq in H. now subst.
Qed.

Lemma is_kind_refl (kind : string) : is_kind (PStr kind) kind = true.
Proof. unfold is_kind. simpl. apply String.eqb_refl. Qed.

#[local] Arguments center_pixel : simpl never.
#[local] Arguments midpoint_pixel : simpl never.
#[local] Arguments duration_valid : simpl never.
#[local] Arguments scale_pixel : simpl never.
#[local] Arguments fraction_pixel : simpl never.
#[local] Arguments bbox_invalid : simpl never.
#[local] Arguments sleep_check : simpl never.
#[local] Arguments find_element : simpl never.
#[local] Arguments py_eq : simpl never.
#[local] Arguments py_in : simpl never.
#[local] Arguments py_truthy : simpl never.
#[local] Arguments dict_get : simpl never.
#[local] Arguments dict_get_default : simpl never.
#[local] Arguments target_get : simpl never.
#[local] Arguments float_of_int : simpl never.
#[local] Arguments is_kind : simpl never.

Ltac unfold_m :=
  unfold function, try_, bind, lift, ret, return_, tap, swipe, input_text, wait, sleep.

(** Case analysis on the innermost scrutinee first, so that every
    decision of the program is split on its own. *)
Ltac split_match :=
  repeat match goal with
         | |- context [match ?x with _ => _ end] =>
             lazymatch x with
             | context [match _ with _ => _ end] => fail
             | _ => destruct x eqn:?; simpl
             end
         end.

(** Outside [DONE], whatever the chain of kinds does, it does not return
    [False]. *)
Lemma execute_kind_not_done action_data omni_elements action_type width height adb :
  is_kind action_type "DONE" = false ->
  fst (execute_kind action_data omni_elements action_type width height adb) <> Return false.
Proof.
  intros Hdone. unfold execute_kind. rewrite Hdone.
  unfold_m. simpl. split_match; simpl; congruence.
Qed.

Lemma execute_kind_done action_data omni_elements width height adb :
  execute_kind action_data omni_elements (PStr "DONE") width height adb = (Return false, adb).
Proof. reflexivity. Qed.

(** [execute_action] never raises, and what it returns depends on the kind
    of the action alone. *)
Lemma execute_action_result action_data adb screen_dimensions omni_elements :
  exists adb',
    execute_action action_data adb screen_dimensions omni_elements
    = (Ok (negb (stops action_data)), adb').
Proof.
  unfold execute_action, execute_body, stops.
  destruct screen_dimensions as [width height].
  set (action_type := dict_get action_data "action").
  destruct (py_truthy action_type) eqn:Htruthy; simpl.
  2: { eexists. reflexivity. }
  destruct (is_kind action_type "DONE") eqn:Hdone; simpl.
  - apply is_kind_true in Hdone. rewrite Hdone.
    unfold_m. simpl. eexists. reflexivity.
  - pose proof (fun adb0 => execute_kind_not_done action_data omni_elements
                              action_type width height adb0 Hdone) as Hkind.
    unfold_m. simpl.
    destruct (py_in action_type [PStr "TAP"; PStr "INPUT_TEXT"]
              && negb (py_is_none (dict_get action_data "element_index"))); simpl.
    + destruct (negb (found (find_element omni_elements
                                          (dict_get action_data "element_index")))); simpl.
      * eexists. reflexivity.
      * specialize (Hkind adb).
        destruct (execute_kind action_data omni_elements action_type width height adb)
          as [[success | [|] | e] adb1]; simpl in *; try congruence;
          split_match; eexists; reflexivity.
    + specialize (Hkind adb).
      destruct (execute_kind action_data omni_elements action_type width height adb)
        as [[success | [|] | e] adb1]; simpl in *; try congruence;
        split_match; eexists; reflexivity.
Qed.

Lemma execute_action_total action_data adb screen_dimensions omni_elements :
  fst (execute_action action_data adb screen_dimensions omni_elements)
  = Ok (negb (stops action_data)).
Proof.
  destruct (execute_action_result action_data adb screen_dimensions omni_elements)
    as [adb' H].
  now rewrite H.
Qed.

Lemma summarize_action_total action_data omni_elements :
  exists s, summarize_action action_data omni_elements = Ok s.
Proof.
  unfold summarize_action, try_except.
  destruct (summarize_body _ _ _ _); eexists; reflexivity.
Qed.
















(* ===================================================================== *)
(** ** Properties of the summarizer *)
(* ===================================================================== *)



(* ===================================================================== *)
(** ** Properties of the automation loop *)
(* ===================================================================== *)

(** *** One iteration *)

Lemma loop_body_iteration env screen_dims s st :
  iteration env screen_dims s st (loop_body env screen_dims s st).
Proof.
  unfold loop_body.
  destruct (take_screenshot env (s + 1)) eqn:Hshot; simpl.
  2: { now apply iter_no_screenshot. }
  destruct (call_omniparser_v2 env (s + 1)) as [omni_elements annotated_img_path] eqn:Homni.
  simpl.
  destruct (get_llm_action env (s + 1) omni_elements (action_history st)
                           (annotated_or_none annotated_img_path))
    as [[llm_action llm_reasoning] |] eqn:Hllm.
  2: { unfold emit in *. simpl in *. rewrite <- !app_assoc. simpl.
       eapply iter_no_action; eauto. }
  destruct (summarize_action_total llm_action omni_elements) as [summ Hsumm].
  rewrite Hsumm.
  destruct (execute_action_result llm_action (adb st) screen_dims omni_elements)
    as [adb' Hexec].
  pose proof (iter_executed env screen_dims s st omni_elements annotated_img_path
                            llm_action llm_reasoning summ _ adb' Hshot Homni Hllm Hsumm Hexec)
    as Hiter.
  destruct (same_summary summ (last_action_summary st)) eqn:Hsame;
    simpl in *; rewrite ?Hsame; simpl; rewrite Hexec; simpl;
    unfold finish in Hiter;
    destruct (negb (stops llm_action)); simpl in *;
    rewrite <- ?app_assoc in *; simpl in *; rewrite <- ?app_assoc in *; simpl in *;
    exact Hiter.
Qed.

(** *** Invariants of the loop *)

(** If [I] holds before the first iteration and every iteration below [N]
    either keeps it or breaks into [F], then the loop over the steps up to
    [N] ends past its last iteration with [I], or at a [break] with [F]. *)
Lemma for_steps_invariant (I : nat -> LoopState -> Prop) (F : Exit -> LoopState -> Prop)
      env screen_dims (N : nat) :
  (forall s st r, (s < N)%nat -> I s st -> iteration env screen_dims s st r ->
                  match r with
                  | Continue st' => I (S s) st'
                  | Break why st' => F why st'
                  end) ->
  forall n a st,
    (a + n = N)%nat ->
    I a st ->
    let run := for_steps env screen_dims (seq a n) st in
    (fst run = MaxStepsReached /\ I N (snd run)) \/ F (fst run) (snd run).
Proof.
  intros Hstep. induction n as [| n IH]; intros a st HN HI; simpl.
  - left. split; [reflexivity |]. now replace N with a by lia.
  - assert (Ha : (a < N)%nat) by lia.
    pose proof (Hstep a st _ Ha HI (loop_body_iteration env screen_dims a st)) as H.
    destruct (loop_body env screen_dims a st) as [st' | why st'].
    + apply (IH (S a) st'); [lia | exact H].
    + right. exact H.
Qed.

Lemma run_steps_invariant (I : nat -> LoopState -> Prop) (F : Exit -> LoopState -> Prop)
      env screen_dims adb0 (N : nat) :
  (forall s st r, (s < N)%nat -> I s st -> iteration env screen_dims s st r ->
                  match r with
                  | Continue st' => I (S s) st'
                  | Break why st' => F why st'
                  end) ->
  I 0%nat (initial_state adb0) ->
  let run := run_steps env screen_dims adb0 N in
  (fst run = MaxStepsReached /\ I N (snd run)) \/ F (fst run) (snd run).
Proof.
  intros Hstep H0. unfold run_steps.
  apply (for_steps_invariant I F env screen_dims N Hstep N 0%nat); [reflexivity | exact H0].
Qed.

(** *** The history window *)

Lemma appended_app tr tr' : appended (tr ++ tr') = appended tr ++ appended tr'.
Proof.
  induction tr as [| ev tr IH]; simpl; [reflexivity |].
  destruct ev; simpl; now rewrite IH.
Qed.

Lemma slice_from_negative {A} (k : nat) (l : list A) :
  (0 < k)%nat -> list_slice_from (- Z.of_nat k) l = last_k k l.
Proof.
  intros Hk. unfold list_slice_from, last_k.
  destruct (- Z.of_nat k <? 0) eqn:Hneg; [| apply Z.ltb_ge in Hneg; lia].
  f_equal. lia.
Qed.

Lemma last_k_length {A} (k : nat) (l : list A) : (List.length (last_k k l) <= k)%nat.
Proof. unfold last_k. rewrite length_skipn. lia. Qed.

Lemma last_k_snoc {A} (k : nat) (l : list A) (x : A) :
  (0 < k)%nat -> last_k k (last_k k l ++ [x]) = last_k k (l ++ [x]).
Proof.
  intros Hk. unfold last_k.
  destruct (Nat.le_gt_cases (List.length l) k) as [Hle | Hgt].
  - replace (List.length l - k)%nat with 0%nat by lia. reflexivity.
  - rewrite !length_app, length_skipn. simpl.
    rewrite !skipn_app, skipn_skipn, length_skipn.
    replace (List.length l - (List.length l - k) + 1 - k + (List.length l - k))%nat
      with (List.length l + 1 - k)%nat by lia.
    replace (List.length l - (List.length l - k) + 1 - k - (List.length l - (List.length l - k)))%nat
      with 0%nat by lia.
    replace (List.length l + 1 - k - List.length l)%nat with 0%nat by lia.
    reflexivity.
Qed.

Lemma history_slice (l : list HistoryEntry) :
  list_slice_from (- config.ACTION_HISTORY_LENGTH) l = last_k history_length l.
Proof. apply (slice_from_negative 5). lia. Qed.

Lemma history_inv_final s st : history_inv s st -> history_final st.
Proof.
  intros [Hhist Hsteps]. split; [exact Hhist |].
  rewrite Hsteps. f_equal.
  apply (f_equal (@List.length nat)) in Hsteps.
  now rewrite length_map, length_seq in Hsteps.
Qed.

Lemma history_inv_step env screen_dims s st r :
  history_inv s st -> iteration env screen_dims s st r ->
  match r with
  | Continue st' => history_inv (S s) st'
  | Break why st' => history_final st'
  end.
Proof.
  intros [Hhist Hsteps] Hiter.
  destruct Hiter as [Hshot | el path Hshot Homni Hllm
                     | el path a reasoning summ cont adb' Hshot Homni Hllm Hsumm Hexec entry].
  - apply (history_inv_final s). split; simpl; rewrite appended_app, app_nil_r; assumption.
  - apply (history_inv_final s). split; simpl; rewrite appended_app, app_nil_r; assumption.
  - assert (Hnew : history_inv (S s)
                     (mkState adb'
                        (list_slice_from (- config.ACTION_HISTORY_LENGTH)
                                         (action_history st ++ [entry]))
                        (Some summ)
                        (trace st
                         ++ [EvScreenshot (s + 1) true; EvOmniparser (s + 1); EvLLM (s + 1) true]
                         ++ (if same_summary summ (last_action_summary st)
                             then [EvLoopWarning (s + 1)] else [])
                         ++ [EvExecute (s + 1) a cont; EvAppend entry]))).
    { assert (Happ : appended (trace st
                         ++ [EvScreenshot (s + 1) true; EvOmniparser (s + 1); EvLLM (s + 1) true]
                         ++ (if same_summary summ (last_action_summary st)
                             then [EvLoopWarning (s + 1)] else [])
                         ++ [EvExecute (s + 1) a cont; EvAppend entry])
                     = appended (trace st) ++ [entry]).
      { rewrite appended_app. f_equal.
        destruct (same_summary summ (last_action_summary st)); reflexivity. }
      unfold history_inv. cbn [trace action_history]. rewrite Happ. split.
      - rewrite history_slice, Hhist. apply last_k_snoc. unfold history_length. simpl. lia.
      - rewrite map_app, Hsteps, seq_S. f_equal. subst entry. simpl. f_equal. lia. }
    unfold finish. destruct cont.
    + exact Hnew.
    + exact (history_inv_final _ _ Hnew).
Qed.

Lemma run_steps_history env screen_dims adb0 n :
  history_final (snd (run_steps env screen_dims adb0 n)).
Proof.
  destruct (run_steps_invariant history_inv (fun _ st => history_final st)
              env screen_dims adb0 n) as [[_ H] | H].
  - intros s st r _. apply history_inv_step.
  - split; reflexivity.
  - exact (history_inv_final _ _ H).
  - exact H.
Qed.

(** C4: however many iterations have run, the history holds at most
    [ACTION_HISTORY_LENGTH] (5) entries; it is the last entries appended, in
    the order they were appended, which is the order of their steps; and
    once six entries have been appended the first one is no longer in it. *)
Theorem history_is_bounded_window :
  forall env screen_dims adb0 n,
    let st := snd (run_steps env screen_dims adb0 n) in
    let entries := appended (trace st) in
    (List.length (action_history st) <= Z.to_nat config.ACTION_HISTORY_LENGTH)%nat
    /\ action_history st
       = skipn (List.length entries - Z.to_nat config.ACTION_HISTORY_LENGTH) entries
    /\ map step entries = seq 1 (List.length entries)
    /\ (forall oldest,
           (Z.to_nat config.ACTION_HISTORY_LENGTH + 1 <= List.length entries)%nat ->
           hd_error entries = Some oldest ->
           ~ In oldest (action_history st)).
Proof.
  intros env screen_dims adb0 n st entries.
  destruct (run_steps_history env screen_dims adb0 n) as [Hhist Hsteps].
  fold st in Hhist, Hsteps. fold entries in Hhist, Hsteps.
  split; [| split; [| split]].
  - rewrite Hhist. apply last_k_length.
  - exact Hhist.
  - exact Hsteps.
  - intros oldest Hlen Hhd Hin.
    assert (Hstep1 : step oldest = 1%nat).
    { destruct entries as [| e l]; [discriminate Hhd |].
      injection Hhd as ->. simpl in Hsteps. now injection Hsteps. }
    apply (in_map step) in Hin.
    rewrite Hhist in Hin. unfold last_k in Hin.
    rewrite <- skipn_map, Hsteps, skipn_seq in Hin.
    apply in_seq in Hin. fold history_length in Hlen.
    unfold history_length in *. simpl in *. lia.
Qed.

(** The same [WAIT] at every step: after 15 appends the window holds the
    steps 11 to 15, oldest first, and the entry of step 1 is gone. *)
Lemma history_is_bounded_window_witness :
  let st := snd (run_steps always_wait (1080, 2400) all_accepting 15) in
  map step (action_history st) = [11; 12; 13; 14; 15]%nat
  /\ ~ In (mkEntry 1 "Action: WAIT (2s)" (PStr "wait for the page") wait_2)
          (action_history st).
Proof.
  cbv zeta.
  pose proof (history_is_bounded_window always_wait (1080, 2400) all_accepting 15)
    as (_ & Hwindow & _ & Holdest).
  split.
  - rewrite Hwindow. reflexivity.
  - apply Holdest; [vm_compute; lia | reflexivity].
Defined.

(** *** Counting steps *)

Lemma steps_begun_app tr tr' : steps_begun (tr ++ tr') = (steps_begun tr + steps_begun tr')%nat.
Proof. unfold steps_begun. now rewrite filter_app, length_app. Qed.

Lemma steps_executed_app tr tr' :
  steps_executed (tr ++ tr') = (steps_executed tr + steps_executed tr')%nat.
Proof. unfold steps_executed. now rewrite filter_app, length_app. Qed.

Lemma count_inv_step env screen_dims N s st r :
  (s < N)%nat -> count_inv s st -> iteration env screen_dims s st r ->
  match r with
  | Continue st' => count_inv (S s) st'
  | Break why st' => count_final N why st'
  end.
Proof.
  intros Hs [Hbegun Hexec] Hiter.
  destruct Hiter as [Hshot | el path Hshot Homni Hllm
                     | el path a reasoning summ cont adb' Hshot Homni Hllm Hsumm Hrun entry].
  - unfold count_final. simpl.
    rewrite steps_begun_app, steps_executed_app, Hbegun, Hexec.
    unfold steps_begun, steps_executed. simpl. split; [lia | split; [lia |]].
    exists (s + 1)%nat. apply in_or_app. right. now left.
  - unfold count_final. simpl.
    rewrite steps_begun_app, steps_executed_app, Hbegun, Hexec.
    unfold steps_begun, steps_executed. simpl. split; [lia | split; [lia |]].
    exists (s + 1)%nat. apply in_or_app. right. simpl. auto.
  - assert (Hnew : steps_begun
                     (trace st
                      ++ [EvScreenshot (s + 1) true; EvOmniparser (s + 1); EvLLM (s + 1) true]
                      ++ (if same_summary summ (last_action_summary st)
                          then [EvLoopWarning (s + 1)] else [])
                      ++ [EvExecute (s + 1) a cont; EvAppend entry]) = S s
                   /\ steps_executed
                        (trace st
                         ++ [EvScreenshot (s + 1) true; EvOmniparser (s + 1); EvLLM (s + 1) true]
                         ++ (if same_summary summ (last_action_summary st)
                             then [EvLoopWarning (s + 1)] else [])
                         ++ [EvExecute (s + 1) a cont; EvAppend entry]) = S s).
    { rewrite steps_begun_app, steps_executed_app, Hbegun, Hexec.
      unfold steps_begun, steps_executed.
      destruct (same_summary summ (last_action_summary st)); simpl; lia. }
    unfold finish. destruct cont.
    + exact Hnew.
    + unfold count_final. cbn [trace]. destruct Hnew as [-> ->].
      split; [lia | split; [lia |]].
      exists (s + 1)%nat, a. apply in_or_app. right.
      destruct (same_summary summ (last_action_summary st)); simpl; auto 10.
Qed.

Lemma agent_loop_counts env screen_dims adb0 :
  let run := agent_loop env screen_dims adb0 in
  (fst run = MaxStepsReached /\ count_inv config.MAX_STEPS (snd run))
  \/ count_final config.MAX_STEPS (fst run) (snd run).
Proof.
  apply (run_steps_invariant count_inv (count_final config.MAX_STEPS)
                             env screen_dims adb0 config.MAX_STEPS).
  - intros s st r. apply count_inv_step.
  - split; reflexivity.
Qed.



(** *** A failed screenshot *)

Lemma no_failure_extend s st (new : list Event) :
  no_failure_inv s st ->
  (forall ev, In ev new -> event_step ev = S s /\ forall k, ev <> EvScreenshot k false) ->
  forall ev, In ev (trace st ++ new) ->
             (event_step ev <= S s)%nat /\ forall k, ev <> EvScreenshot k false.
Proof.
  intros Hinv Hnew ev Hin. apply in_app_or in Hin. destruct Hin as [Hin | Hin].
  - destruct (Hinv ev Hin) as [Hle Hok]. split; [lia | exact Hok].
  - destruct (Hnew ev Hin) as [Heq Hok]. split; [lia | exact Hok].
Qed.

Ltac event_cases H :=
  repeat (destruct H as [<- | H]; [split; [simpl; lia | intros; discriminate] |]);
  try contradiction.

Lemma no_failure_step env screen_dims s st r :
  no_failure_inv s st -> iteration env screen_dims s st r ->
  match r with
  | Continue st' => no_failure_inv (S s) st'
  | Break why st' => failure_final why st'
  end.
Proof.
  intros Hinv Hiter.
  destruct Hiter as [Hshot | el path Hshot Homni Hllm
                     | el path a reasoning summ cont adb' Hshot Homni Hllm Hsumm Hrun entry].
  - intros k Hin. simpl in Hin. apply in_app_or in Hin. destruct Hin as [Hin | Hin].
    + destruct (Hinv _ Hin) as [_ Hok]. now contradiction (Hok k).
    + destruct Hin as [Heq | []]. injection Heq as <-.
      split; [reflexivity |]. exists (trace st). split; [reflexivity |].
      intros ev Hev. destruct (Hinv ev Hev) as [Hle _]. lia.
  - intros k Hin. exfalso.
    assert (Hall : forall ev,
               In ev (trace st ++ [EvScreenshot (s + 1) true; EvOmniparser (s + 1);
                                   EvLLM (s + 1) false]) ->
               (event_step ev <= S s)%nat /\ forall k, ev <> EvScreenshot k false).
    { apply no_failure_extend; [exact Hinv |]. intros ev Hev. simpl in Hev. event_cases Hev. }
    destruct (Hall _ Hin) as [_ Hok]. now apply (Hok k).
  - assert (Hall : no_failure_inv (S s)
                     (mkState adb'
                        (list_slice_from (- config.ACTION_HISTORY_LENGTH)
                                         (action_history st ++ [entry]))
                        (Some summ)
                        (trace st
                         ++ [EvScreenshot (s + 1) true; EvOmniparser (s + 1); EvLLM (s + 1) true]
                         ++ (if same_summary summ (last_action_summary st)
                             then [EvLoopWarning (s + 1)] else [])
                         ++ [EvExecute (s + 1) a cont; EvAppend entry]))).
    { unfold no_failure_inv. cbn [trace].
      apply no_failure_extend; [exact Hinv |]. intros ev Hev.
      destruct (same_summary summ (last_action_summary st)); simpl in Hev; event_cases Hev. }
    unfold finish. destruct cont.
    + exact Hall.
    + intros k Hin. destruct (Hall _ Hin) as [_ Hok]. now contradiction (Hok k).
Qed.

(** C8: if a screenshot fails at step [k], the loop ends there with the
    screenshot failure: the failed screenshot is the last thing it does, and
    everything before it belongs to earlier steps, so that the trace holds
    no vision call, no model call, no execution and no history entry for
    step [k] or a later one. *)
Theorem screenshot_failure_ends_loop :
  forall env screen_dims adb0 k,
    let run := agent_loop env screen_dims adb0 in
    In (EvScreenshot k false) (trace (snd run)) ->
    fst run = ScreenshotFailed
    /\ (exists before,
           trace (snd run) = before ++ [EvScreenshot k false]
           /\ forall ev, In ev before -> (event_step ev < k)%nat)
    /\ (forall ev, In ev (trace (snd run)) -> (k <= event_step ev)%nat ->
                   ev = EvScreenshot k false).
Proof.
  intros env screen_dims adb0 k run Hin.
  assert (Hend : fst run = ScreenshotFailed
                 /\ exists before,
                     trace (snd run) = before ++ [EvScreenshot k false]
                     /\ forall ev, In ev before -> (event_step ev < k)%nat).
  { destruct (run_steps_invariant no_failure_inv failure_final
                env screen_dims adb0 config.MAX_STEPS) as [[_ Hinv] | Hfinal].
    - intros s st r _. apply no_failure_step.
    - intros ev [].
    - destruct (Hinv _ Hin) as [_ Hok]. now contradiction (Hok k).
    - exact (Hfinal k Hin). }
  destruct Hend as (Hexit & before & Htrace & Hbefore).
  split; [exact Hexit | split].
  - exists before. split; [exact Htrace | exact Hbefore].
  - intros ev Hev Hle. rewrite Htrace in Hev. apply in_app_or in Hev.
    destruct Hev as [Hev | [Hev | []]].
    + apply Hbefore in Hev. lia.
    + now symmetry.
Qed.

Lemma screenshot_failure_ends_loop_witness :
  let run := agent_loop screenshot_fails_at_3 (1080, 2400) all_accepting in
  fst run = ScreenshotFailed
  /\ (exists before,
         trace (snd run) = before ++ [EvScreenshot 3 false]
         /\ forall ev, In ev before -> (event_step ev < 3)%nat)
  /\ (forall ev, In ev (trace (snd run)) -> (3 <= event_step ev)%nat ->
                 ev = EvScreenshot 3 false).
Proof.
  cbv zeta.
  apply (screenshot_failure_ends_loop screenshot_fails_at_3 (1080, 2400) all_accepting 3).
  vm_compute. do 11 right. left. reflexivity.
Defined.

(** *** The loop detector *)

Lemma in_appended tr entry : In entry (appended tr) -> In (EvAppend entry) tr.
Proof.
  induction tr as [| ev tr IH]; simpl; [tauto |].
  destruct ev; simpl; intros H; auto.
  destruct H as [-> | H]; auto.
Qed.

Lemma find_app {A} (f : A -> bool) (l l' : list A) :
  find f (l ++ l') = match find f l with
                     | Some x => Some x
                     | None => find f l'
                     end.
Proof.
  induction l as [| x l IH]; simpl; [reflexivity |].
  destruct (f x); [reflexivity | exact IH].
Qed.

Lemma summary_at_some tr k x :
  summary_at tr k = Some x ->
  exists entry, In (EvAppend entry) tr /\ step entry = k /\ summary entry = x.
Proof.
  unfold summary_at.
  destruct (find (fun entry => Nat.eqb (step entry) k) (appended tr)) as [entry |] eqn:Hfind;
    simpl; [| discriminate].
  intros H. injection H as <-.
  apply find_some in Hfind. destruct Hfind as [Hin Hstep].
  exists entry. split; [now apply in_appended |]. split; [| reflexivity].
  now apply Nat.eqb_eq.
Qed.

Lemma summary_at_app tr tr' k :
  summary_at (tr ++ tr') k = match summary_at tr k with
                             | Some x => Some x
                             | None => summary_at tr' k
                             end.
Proof.
  unfold summary_at. rewrite appended_app, find_app.
  destruct (find (fun entry => Nat.eqb (step entry) k) (appended tr)); reflexivity.
Qed.

Lemma summary_at_outside lo hi tr k :
  steps_within lo hi tr -> (k < lo \/ hi < k)%nat -> summary_at tr k = None.
Proof.
  intros Hwithin Hk. destruct (summary_at tr k) as [x |] eqn:Hsome; [| reflexivity].
  apply summary_at_some in Hsome. destruct Hsome as (entry & Hin & Hstep & _).
  apply Hwithin in Hin. simpl in Hin. lia.
Qed.

Lemma same_summary_iff current last :
  same_summary current last = true <-> last = Some current.
Proof.
  unfold same_summary. destruct last as [s |].
  - rewrite String.eqb_eq. split; [intros -> | intros [= ->]]; reflexivity.
  - split; discriminate.
Qed.

Lemma steps_within_app lo hi hi' tr new :
  steps_within lo hi tr -> (hi <= hi')%nat -> steps_within lo hi' new ->
  steps_within lo hi' (tr ++ new).
Proof.
  intros Htr Hle Hnew ev Hin. apply in_app_or in Hin. destruct Hin as [Hin | Hin].
  - apply Htr in Hin. lia.
  - now apply Hnew.
Qed.

(** Events that neither append nor warn leave the detector's record as it is. *)
Lemma flags_repeats_quiet tr new :
  appended new = [] -> (forall k, ~ In (EvLoopWarning k) new) ->
  flags_repeats tr -> flags_repeats (tr ++ new).
Proof.
  intros Happ Hquiet Hflags k.
  assert (Hsame : forall j, summary_at (tr ++ new) j = summary_at tr j).
  { intros j. rewrite summary_at_app.
    assert (Hnone : summary_at new j = None).
    { unfold summary_at. rewrite Happ. reflexivity. }
    rewrite Hnone. destruct (summary_at tr j); reflexivity. }
  rewrite !Hsame, <- (Hflags k). rewrite in_app_iff.
  split; [intros [H | H]; [exact H | now apply Hquiet in H] | auto].
Qed.

Lemma detector_step env screen_dims s st r :
  detector_inv s st -> iteration env screen_dims s st r ->
  match r with
  | Continue st' => detector_inv (S s) st'
  | Break why st' => detector_final st'
  end.
Proof.
  intros (Hwithin & Hlast & Hflags) Hiter.
  destruct Hiter as [Hshot | el path Hshot Homni Hllm
                     | el path a reasoning summ cont adb' Hshot Homni Hllm Hsumm Hrun entry].
  - split.
    + exists (S s). simpl. apply (steps_within_app 1 s); [exact Hwithin | lia |].
      intros ev [<- | []]. simpl. lia.
    + simpl. apply flags_repeats_quiet; [reflexivity | | exact Hflags].
      intros k [H | []]. discriminate.
  - split.
    + exists (S s). simpl. apply (steps_within_app 1 s); [exact Hwithin | lia |].
      intros ev [<- | [<- | [<- | []]]]; simpl; lia.
    + simpl. apply flags_repeats_quiet; [reflexivity | | exact Hflags].
      intros k [H | [H | [H | []]]]; discriminate.
  - set (flagged := same_summary summ (last_action_summary st)).
    set (new := [EvScreenshot (s + 1) true; EvOmniparser (s + 1); EvLLM (s + 1) true]
                ++ (if flagged then [EvLoopWarning (s + 1)] else [])
                ++ [EvExecute (s + 1) a cont; EvAppend entry]).
    assert (Hnew_steps : steps_within 1 (S s) new).
    { intros ev Hev. subst new. destruct flagged; simpl in Hev;
        repeat (destruct Hev as [<- | Hev]; [simpl; lia |]); contradiction. }
    assert (Hnew_app : appended new = [entry]).
    { subst new. destruct flagged; reflexivity. }
    assert (Hnew_warn : forall k, In (EvLoopWarning k) new <-> flagged = true /\ k = S s).
    { intros k. subst new. destruct flagged; simpl; split.
      - intros [H | [H | [H | [H | [H | [H | []]]]]]]; try discriminate.
        injection H as <-. split; [reflexivity | lia].
      - intros [_ ->]. do 3 right. left. f_equal. lia.
      - intros [H | [H | [H | [H | [H | []]]]]]; discriminate.
      - intros [H _]. discriminate. }
    assert (Hat : forall j, summary_at (trace st ++ new) j
                            = if Nat.eqb j (S s) then Some summ else summary_at (trace st) j).
    { intros j. rewrite summary_at_app.
      destruct (summary_at (trace st) j) as [x |] eqn:Hold.
      - destruct (Nat.eqb_spec j (S s)) as [-> | _]; [| reflexivity].
        rewrite (summary_at_outside 1 s) in Hold; [discriminate | exact Hwithin | lia].
      - unfold summary_at. rewrite Hnew_app. subst entry. simpl.
        replace (s + 1)%nat with (S s) by lia.
        rewrite (Nat.eqb_sym (S s) j). destruct (Nat.eqb j (S s)); reflexivity. }
    assert (Hinv : detector_inv (S s)
                     (mkState adb'
                        (list_slice_from (- config.ACTION_HISTORY_LENGTH)
                                         (action_history st ++ [entry]))
                        (Some summ) (trace st ++ new))).
    { split; [| split]; cbn [trace last_action_summary].
      - apply (steps_within_app 1 s); [exact Hwithin | lia | exact Hnew_steps].
      - rewrite Hat, Nat.eqb_refl. reflexivity.
      - intros k. rewrite in_app_iff, Hnew_warn, !Hat.
        destruct (Nat.eqb_spec (S k) (S s)) as [Heq | Hneq].
        + injection Heq as ->.
          replace (Nat.eqb s (S s)) with false by (symmetry; apply Nat.eqb_neq; lia).
          unfold flagged. rewrite same_summary_iff, Hlast. split.
          * intros [Hin | [Hsame _]].
            -- apply Hwithin in Hin. simpl in Hin. lia.
            -- exists summ. split; [reflexivity | exact Hsame].
          * intros (x & [= <-] & Hprev). right. split; [exact Hprev | reflexivity].
        + destruct (Nat.eqb_spec k (S s)) as [-> | Hneq'].
          * rewrite (summary_at_outside 1 s (trace st) (S (S s)) Hwithin) by lia. split.
            -- intros [Hin | [_ Heq]]; [| lia].
               apply Hwithin in Hin. simpl in Hin. lia.
            -- intros (x & H & _). discriminate.
          * rewrite <- (Hflags k). split; [intros [H | [_ H]]; [exact H | congruence] | auto]. }
    unfold finish. destruct cont.
    + exact Hinv.
    + destruct Hinv as (H1 & _ & H3). split; [exists (S s); exact H1 | exact H3].
Qed.

Lemma run_steps_detector env screen_dims adb0 n :
  detector_final (snd (run_steps env screen_dims adb0 n)).
Proof.
  destruct (run_steps_invariant detector_inv (fun _ st => detector_final st)
              env screen_dims adb0 n) as [[_ H] | H].
  - intros s st r _. apply detector_step.
  - split; [intros ev [] | split; [reflexivity |]].
    intros k. split; [intros [] | intros (x & H & _); discriminate].
  - destruct H as (H1 & _ & H3). split; [exists n; exact H1 | exact H3].
  - exact H.
Qed.

(** The flag changes nothing but the trace: whatever [last_action_summary]
    holds, the iteration takes the same course. *)
Lemma loop_body_ignores_last env screen_dims s st last :
  same_course (loop_body env screen_dims s st)
              (loop_body env screen_dims s (with_last st last)).
Proof.
  unfold loop_body, with_last, emit, same_course, without_warnings. simpl.
  destruct (take_screenshot env (s + 1)); simpl.
  2: { rewrite !filter_app. auto. }
  destruct (call_omniparser_v2 env (s + 1)) as [el path]. simpl.
  destruct (get_llm_action env (s + 1) el (action_history st) (annotated_or_none path))
    as [[a reasoning] |].
  2: { auto. }
  destruct (summarize_action_total a el) as [summ ->].
  destruct (execute_action_result a (adb st) screen_dims el) as [adb' Hrun].
  destruct (same_summary summ (last_action_summary st)),
           (same_summary summ last); simpl; rewrite Hrun; simpl;
    destruct (negb (stops a)); simpl; rewrite !filter_app; simpl;
    rewrite ?app_nil_r; auto.
Qed.

(** C5: the detector flags step [k + 1] exactly when the summary of its
    action is the summary of the action of step [k], character for
    character; it never flags the first step; and the flag changes nothing
    else: with or without it the iteration executes the same action with
    the same effects and leaves the loop, or not, the same way. *)
Theorem loop_warning_iff_same_summary :
  forall env screen_dims adb0 n,
    let tr := trace (snd (run_steps env screen_dims adb0 n)) in
    (forall k, In (EvLoopWarning (S k)) tr
               <-> exists x, summary_at tr (S k) = Some x /\ summary_at tr k = Some x)
    /\ ~ In (EvLoopWarning 1) tr
    /\ ~ In (EvLoopWarning 0) tr
    /\ (forall s st last,
           same_course (loop_body env screen_dims s st)
                       (loop_body env screen_dims s (with_last st last))).
Proof.
  intros env screen_dims adb0 n tr.
  destruct (run_steps_detector env screen_dims adb0 n) as [[bound Hwithin] Hflags].
  fold tr in Hwithin, Hflags.
  split; [exact Hflags | split; [| split]].
  - intros Hin. apply Hflags in Hin. destruct Hin as (x & _ & Hprev).
    rewrite (summary_at_outside 1 bound) in Hprev; [discriminate | exact Hwithin | lia].
  - intros Hin. apply Hwithin in Hin. simpl in Hin. lia.
  - intros s st last. apply loop_body_ignores_last.
Qed.

(** The same [WAIT] at every step is flagged from step 2 on, to the last
    step. *)
Lemma loop_warning_iff_same_summary_witness :
  let tr := trace (snd (run_steps always_wait (1080, 2400) all_accepting 15)) in
  In (EvLoopWarning 2) tr /\ In (EvLoopWarning 15) tr /\ ~ In (EvLoopWarning 1) tr.
Proof.
  cbv zeta.
  pose proof (loop_warning_iff_same_summary always_wait (1080, 2400) all_accepting 15)
    as (Hiff & Hfirst & _).
  split; [| split].
  - apply (proj2 (Hiff 1%nat)). exists "Action: WAIT (2s)". split; reflexivity.
  - apply (proj2 (Hiff 14%nat)). exists "Action: WAIT (2s)". split; reflexivity.
  - exact Hfirst.
Defined.

(** *** [None] for the elements, in the loop *)

Lemma loop_body_empty_for_none env screen_dims s st :
  (forall k history path,
      get_llm_action env k None history path = get_llm_action env k (Some []) history path) ->
  loop_body (empty_for_none env) screen_dims s st = loop_body env screen_dims s st.
Proof.
  intros Hllm. unfold loop_body, empty_for_none. simpl.
  destruct (take_screenshot env (s + 1)); simpl; [| reflexivity].
  destruct (call_omniparser_v2 env (s + 1)) as [[l |] path]; simpl; [reflexivity |].
  rewrite <- Hllm.
  destruct (get_llm_action env (s + 1) None (action_history st) (annotated_or_none path))
    as [[a reasoning] |]; reflexivity.
Qed.

Lemma for_steps_empty_for_none env screen_dims steps st :
  (forall k history path,
      get_llm_action env k None history path = get_llm_action env k (Some []) history path) ->
  for_steps (empty_for_none env) screen_dims steps st = for_steps env screen_dims steps st.
Proof.
  intros Hllm. revert st. induction steps as [| s steps IH]; intros st; simpl.
  - reflexivity.
  - rewrite (loop_body_empty_for_none env screen_dims s st Hllm).
    destruct (loop_body env screen_dims s st); [apply IH | reflexivity].
Qed.

(** C10: with [None] for the elements, [summarize_action] and
    [execute_action] do what they do with the empty list: the same string,
    the same returned flag, the same calls on the device.  So a loop whose
    vision service fails (answers [None]) runs as the loop where it answers
    the empty list, as long as the model answers the two alike. *)
Theorem none_is_empty_elements :
  forall action_data adb screen_dimensions,
    summarize_action action_data None = summarize_action action_data (Some [])
    /\ execute_action action_data adb screen_dimensions None
       = execute_action action_data adb screen_dimensions (Some [])
    /\ (forall env,
           (forall k history path,
               get_llm_action env k None history path
               = get_llm_action env k (Some []) history path) ->
           agent_loop (empty_for_none env) screen_dimensions adb
           = agent_loop env screen_dimensions adb).
Proof.
  intros action_data adb screen_dimensions.
  split; [reflexivity | split; [reflexivity |]].
  intros env Hllm. unfold agent_loop, run_steps.
  now apply for_steps_empty_for_none.
Qed.

Lemma none_is_empty_elements_witness :
  agent_loop (empty_for_none always_wait) (1080, 2400) all_accepting
  = agent_loop always_wait (1080, 2400) all_accepting.
Proof.
  apply (proj2 (proj2 (none_is_empty_elements wait_2 all_accepting (1080, 2400)))).
  intros k history path. reflexivity.
Defined.

(** *** A run from end to end *)

(** A tap on the only button, then [DONE]: the loop stops at the second
    step on the executor's signal, with two history entries, after one tap
    in the middle of the screen and its settle wait. *)
Example tap_then_done_run :
  let run := agent_loop tap_then_done (1000, 2000) all_accepting in
  fst run = ExecutorStopped
  /\ map summary (action_history (snd run))
     = ["Action: TAP (Index: 0, Content: 'Submit')"; "Action: DONE"]
  /\ log (adb (snd run)) = [Tap 500 1000; Wait (PFloat 2)]
  /\ steps_begun (trace (snd run)) = 2%nat.
Proof. cbv zeta. repeat split; vm_compute; reflexivity. Qed.

(* ===================================================================== *)
(** ** More on the executor *)
(* ===================================================================== *)











(** X6: when [execute_action] returns [False] it has not touched the
    device: [DONE] and an action without a kind issue no call. *)
Theorem stop_leaves_device_untouched :
  forall action_data adb screen_dimensions omni_elements adb',
    execute_action action_data adb screen_dimensions omni_elements = (Ok false, adb') ->
    adb' = adb.
Proof.
  intros action_data adb [width height] omni_elements adb' Hrun.
  pose proof (execute_action_total action_data adb (width, height) omni_elements) as Htotal.
  rewrite Hrun in Htotal. simpl in Htotal. injection Htotal as Hstops.
  symmetry in Hstops. apply negb_false_iff in Hstops. unfold stops in Hstops.
  revert Hrun. unfold execute_action, execute_body.
  destruct (py_truthy (dict_get action_data "action")) eqn:Htruthy; simpl in *.
  - apply is_kind_true in Hstops. rewrite Hstops. unfold_m. simpl. congruence.
  - unfold_m. simpl. congruence.
Qed.

Lemma stop_leaves_device_untouched_witness :
  snd (execute_action [("action", PStr "DONE")] refuses_first_call (1080, 2400) None)
  = refuses_first_call.
Proof.
  apply (stop_leaves_device_untouched [("action", PStr "DONE")] refuses_first_call
                                      (1080, 2400) None).
  reflexivity.
Defined.






Ltac close_effects :=
  split; [reflexivity |];
  first [ exists []; split; [now rewrite app_nil_r | repeat split; unfold count_calls; simpl; lia]
        | eexists; split;
          [ rewrite <- ?app_assoc; simpl; reflexivity
          | repeat split; unfold count_calls; simpl; lia ] ].

(** X9: whatever the action, [execute_action] only adds to the record of
    calls: at most four of them, among which at most one tap, one swipe and
    one text input. *)
Theorem execute_action_effects_bounded :
  forall action_data adb screen_dimensions omni_elements,
    let adb' := snd (execute_action action_data adb screen_dimensions omni_elements) in
    responses adb' = responses adb
    /\ exists new,
        log adb' = log adb ++ new
        /\ (List.length new <= 4)%nat
        /\ (count_calls is_tap new <= 1)%nat
        /\ (count_calls is_swipe new <= 1)%nat
        /\ (count_calls is_input_text new <= 1)%nat.
Proof.
  intros action_data adb [width height] omni_elements.
  unfold execute_action, execute_body, execute_kind.
  unfold_m. unfold record_call. simpl.
  split_match; close_effects.
Qed.

(* ===================================================================== *)
(** ** More on the summarizer *)
(* ===================================================================== *)



(** X11: the summary of an [INPUT_TEXT] shows the text by its first 20
    characters only: two such actions with the same [element_index] whose
    texts agree on these characters have the same summary, whatever the
    elements, so that the loop detector cannot tell them apart. *)
Theorem input_text_summary_reads_20_characters :
  forall action_1 action_2 elements_1 elements_2 text_1 text_2,
    dict_get action_1 "action" = PStr "INPUT_TEXT" ->
    dict_get action_2 "action" = PStr "INPUT_TEXT" ->
    dict_lookup "text" action_1 = Some (PStr text_1) ->
    dict_lookup "text" action_2 = Some (PStr text_2) ->
    str_prefix 20 text_1 = str_prefix 20 text_2 ->
    dict_get action_1 "element_index" = dict_get action_2 "element_index" ->
    summarize_action action_1 elements_1 = summarize_action action_2 elements_2.
Proof.
  intros action_1 action_2 elements_1 elements_2 text_1 text_2
         Hkind1 Hkind2 Htext1 Htext2 Hprefix Hidx.
  unfold summarize_action, summarize_body, dict_get_default.
  rewrite Hkind1, Hkind2, Htext1, Htext2, Hidx.
  change (is_kind (PStr "INPUT_TEXT") "TAP") with false.
  change (is_kind (PStr "INPUT_TEXT") "INPUT_TEXT") with true.
  cbv iota. unfold py_slice_to. rewrite Hprefix. reflexivity.
Qed.

Lemma input_text_summary_reads_20_characters_witness :
  summarize_action [("action", PStr "INPUT_TEXT"); ("text", PStr "meet me at the station at 5")]
                   None
  = summarize_action [("action", PStr "INPUT_TEXT"); ("text", PStr "meet me at the station at 9")]
                     (Some [submit_button]).
Proof.
  apply (input_text_summary_reads_20_characters
           [("action", PStr "INPUT_TEXT"); ("text", PStr "meet me at the station at 5")]
           [("action", PStr "INPUT_TEXT"); ("text", PStr "meet me at the station at 9")]
           None (Some [submit_button])
           "meet me at the station at 5" "meet me at the station at 9");
    reflexivity.
Defined.

(* ===================================================================== *)
(** ** The text sent to the shell *)
(* ===================================================================== *)

Lemma append_nil_r (s : string) : s +s+ EmptyString = s.
Proof. induction s as [| c s IH]; simpl; [reflexivity | now rewrite IH]. Qed.

Lemma append_assoc (a b c : string) : (a +s+ b) +s+ c = a +s+ (b +s+ c).
Proof. induction a as [| x a IH]; simpl; [reflexivity | now rewrite IH]. Qed.

Lemma length_append (a b : string) :
  String.length (a +s+ b) = (String.length a + String.length b)%nat.
Proof. induction a as [| x a IH]; simpl; [reflexivity | now rewrite IH]. Qed.

Lemma replace_char_app old new (a b : string) :
  replace_char old new (a +s+ b) = replace_char old new a +s+ replace_char old new b.
Proof.
  induction a as [| c a IH]; simpl; [reflexivity |].
  destruct (Ascii.eqb c old); rewrite IH; [now rewrite append_assoc | reflexivity].
Qed.

Lemma escape_text_app (a b : string) :
  escape_text (a +s+ b) = escape_text a +s+ escape_text b.
Proof. unfold escape_text. now rewrite !replace_char_app. Qed.

Lemma escape_text_one (c : ascii) :
  escape_text (String c EmptyString) = escape_char c.
Proof.
  destruct c as [b0 b1 b2 b3 b4 b5 b6 b7].
  destruct b0, b1, b2, b3, b4, b5, b6, b7; reflexivity.
Qed.

Lemma escape_text_chars (s : string) : escape_text s = escape_chars s.
Proof.
  induction s as [| c s IH]; [reflexivity |].
  change (String c s) with (String c EmptyString +s+ s).
  rewrite escape_text_app, escape_text_one, IH. reflexivity.
Qed.

(** X12: the eight replacements of [input_text], made one after the other
    over the whole text, come to one pass that rewrites each character on
    its own (a quote to ['\''], a space to [%s], one of [& < > ? * |] to
    itself after a backslash, any other character, the backslash, the
    double quote and [%] among them, to itself): no replacement rewrites
    what an earlier one wrote.  So the escaped text of a concatenation is
    the concatenation of the escaped texts. *)
Theorem escape_text_is_one_pass :
  forall s t,
    escape_text s = escape_chars s
    /\ escape_text (s +s+ t) = escape_text s +s+ escape_text t.
Proof.
  intros s t. split; [apply escape_text_chars | apply escape_text_app].
Qed.

Lemma str_contains_app c (a b : string) :
  str_contains c (a +s+ b) = str_contains c a || str_contains c b.
Proof.
  induction a as [| x a IH]; simpl; [reflexivity |].
  rewrite IH. now rewrite orb_assoc.
Qed.

Lemma escape_char_no_space (c : ascii) : str_contains " " (escape_char c) = false.
Proof.
  destruct c as [b0 b1 b2 b3 b4 b5 b6 b7].
  destruct b0, b1, b2, b3, b4, b5, b6, b7; reflexivity.
Qed.

Lemma escape_char_plain (c : ascii) :
  is_special c = false -> escape_char c = String c EmptyString.
Proof.
  destruct c as [b0 b1 b2 b3 b4 b5 b6 b7].
  destruct b0, b1, b2, b3, b4, b5, b6, b7; intros H; first [reflexivity | discriminate H].
Qed.

(** X13: the text handed to the shell holds no space, and a text with none
    of the eight characters [' space & < > ? * |] is handed over as it is. *)
Theorem escape_text_no_space :
  forall text,
    str_contains " " (escape_text text) = false
    /\ (str_forallb (fun c => negb (is_special c)) text = true -> escape_text text = text).
Proof.
  intros text. rewrite escape_text_chars. split.
  - induction text as [| c text IH]; simpl; [reflexivity |].
    now rewrite str_contains_app, escape_char_no_space, IH.
  - induction text as [| c text IH]; simpl; [reflexivity |].
    intros H. apply andb_true_iff in H. destruct H as [Hc Htext].
    apply negb_true_iff in Hc.
    rewrite (escape_char_plain c Hc), (IH Htext). reflexivity.
Qed.

Lemma escape_text_no_space_witness :
  escape_text "user@example.com" = "user@example.com".
Proof.
  apply (proj2 (escape_text_no_space "user@example.com")). reflexivity.
Defined.

(** X14: a space and the two characters [%s] are handed to the shell
    alike: [%] is not escaped, so the device cannot tell a text with a
    space from the text with [%s] in its place. *)
Theorem escape_text_confuses_space :
  forall before after,
    escape_text (before +s+ " " +s+ after) = escape_text (before +s+ "%s" +s+ after).
Proof.
  intros before after. rewrite !escape_text_app. reflexivity.
Qed.

(* ===================================================================== *)
(** ** The cached screen size *)
(* ===================================================================== *)

Lemma cached_dimensions_repeat window_size dims calls n :
  get_screen_dimensions_times window_size n (mkScreenInfo (Some dims) calls)
  = (repeat (Some dims) n, mkScreenInfo (Some dims) calls).
Proof.
  induction n as [| n IH]; simpl; [reflexivity |].
  rewrite IH. reflexivity.
Qed.

(** X15: once [get_screen_dimensions] has answered, every later call gives
    the same dimensions without asking the device again; and a failure is
    not kept: after one the dimensions are still unset, and the next call
    asks the device anew. *)
Theorem screen_dimensions_are_cached :
  forall window_size self self',
    (forall dims,
        get_screen_dimensions window_size self = (Some dims, self') ->
        forall n,
          get_screen_dimensions_times window_size n self' = (repeat (Some dims) n, self'))
    /\ (get_screen_dimensions window_size self = (None, self') ->
        _screen_dimensions self' = None
        /\ window_size_calls self' = S (window_size_calls self)
        /\ get_screen_dimensions window_size self'
           = match window_size (window_size_calls self') with
             | Some dims => (Some dims, mkScreenInfo (Some dims) (S (window_size_calls self')))
             | None => (None, mkScreenInfo None (S (window_size_calls self')))
             end).
Proof.
  intros window_size [cache calls] self'. unfold get_screen_dimensions. simpl. split.
  - intros dims Hget n. destruct cache as [cached |].
    + injection Hget as <- <-. apply cached_dimensions_repeat.
    + destruct (window_size calls) as [[width height] |]; [| discriminate].
      injection Hget as <- <-. apply cached_dimensions_repeat.
  - intros Hget. destruct cache as [cached |]; [discriminate |].
    destruct (window_size calls) as [[width height] |]; [discriminate |].
    injection Hget as <-. simpl.
    split; [reflexivity | split; [reflexivity |]].
    destruct (window_size (S calls)) as [[width height] |]; reflexivity.
Qed.

Lemma screen_dimensions_are_cached_witness :
  get_screen_dimensions_times
    (fun n => if Nat.eqb n 1 then Some (1080, 2400) else None) 3
    (mkScreenInfo (Some (1080, 2400)) 2)
  = ([Some (1080, 2400); Some (1080, 2400); Some (1080, 2400)],
     mkScreenInfo (Some (1080, 2400)) 2).
Proof.
  apply (proj1 (screen_dimensions_are_cached
                  (fun n => if Nat.eqb n 1 then Some (1080, 2400) else None)
                  (mkScreenInfo None 1) (mkScreenInfo (Some (1080, 2400)) 2))
               (1080, 2400) eq_refl 3%nat).
Defined.

(* ===================================================================== *)
(** ** Reading the model's answer *)
(* ===================================================================== *)

Lemma startswith_app (prefix rest : string) : startswith prefix (prefix +s+ rest) = true.
Proof.
  induction prefix as [| c prefix IH]; simpl; [reflexivity |].
  now rewrite Ascii.eqb_refl, IH.
Qed.

Lemma str_drop_app (prefix rest : string) :
  str_drop (String.length prefix) (prefix +s+ rest) = rest.
Proof. induction prefix as [| c prefix IH]; simpl; [reflexivity | exact IH]. Qed.

Lemma substring_app (s suffix : string) :
  substring 0 (String.length s) (s +s+ suffix) = s.
Proof.
  induction s as [| c s IH]; simpl.
  - destruct suffix; reflexivity.
  - now rewrite IH.
Qed.

Lemma endswith_app (s suffix : string) : endswith suffix (s +s+ suffix) = true.
Proof.
  unfold endswith. rewrite length_append.
  replace (String.length s + String.length suffix - String.length suffix)%nat
    with (String.length s) by lia.
  rewrite str_drop_app, String.eqb_refl.
  rewrite andb_true_r. apply Nat.leb_le. lia.
Qed.

Lemma str_drop_end_app (s suffix : string) :
  str_drop_end (String.length suffix) (s +s+ suffix) = s.
Proof.
  unfold str_drop_end. rewrite length_append.
  replace (String.length s + String.length suffix - String.length suffix)%nat
    with (String.length s) by lia.
  apply substring_app.
Qed.

(** X16: an answer that, once stripped, is a body between the fences
    [```json] and [```] is handed to the JSON parser as the body, stripped:
    fencing an answer and cleaning it gives the answer back. *)
Theorem clean_response_unfences :
  forall response_text body,
    py_strip response_text = fence_open +s+ body +s+ fence_close ->
    clean_response response_text = py_strip body.
Proof.
  intros response_text body Hfenced. unfold clean_response. rewrite Hfenced.
  rewrite startswith_app.
  change 7%nat with (String.length fence_open). rewrite str_drop_app.
  rewrite endswith_app.
  change 3%nat with (String.length fence_close). rewrite str_drop_end_app.
  reflexivity.
Qed.

Lemma clean_response_unfences_witness :
  clean_response "  ```json
{'action': 'x'}
```
" = "{'action': 'x'}".
Proof.
  apply (clean_response_unfences _ "
{'action': 'x'}
").
  reflexivity.
Defined.

Lemma extract_action_some full_response_json action reasoning :
  extract_action full_response_json = Some (action, reasoning) ->
  exists d,
    full_response_json = PDict d
    /\ dict_get d "action" = PDict action
    /\ py_truthy (dict_get action "action") = true
    /\ reasoning = dict_get_default d "reasoning" (PStr "[No reasoning provided]").
Proof.
  unfold extract_action. destruct full_response_json as [| | | | | | d]; try discriminate.
  destruct (dict_get d "action") as [| | | | | | a] eqn:Haction; try discriminate.
  destruct (py_truthy (dict_get a "action")) eqn:Htruthy; simpl; [| discriminate].
  intros H. injection H as <- <-. exists d. auto.
Qed.

Lemma validated_action_stops_only_on_done_aux full_response_json action reasoning :
  extract_action full_response_json = Some (action, reasoning) ->
  forall adb screen_dimensions omni_elements,
    py_truthy (dict_get action "action") = true
    /\ (fst (execute_action action adb screen_dimensions omni_elements) = Ok false
        <-> dict_get action "action" = PStr "DONE").
Proof.
  intros Hextract adb screen_dimensions omni_elements.
  apply extract_action_some in Hextract. destruct Hextract as (d & _ & _ & Htruthy & _).
  split; [exact Htruthy |].
  rewrite execute_action_total. unfold stops. rewrite Htruthy. simpl. split.
  - intros H. injection H as H. apply negb_false_iff in H. now apply is_kind_true.
  - intros ->. reflexivity.
Qed.

(** X17: an action that [get_llm_action] lets through has a kind that is
    true, so on it [execute_action] returns [False] exactly for ['DONE']:
    the executor's stop for an action without a kind cannot happen on what
    the loop gives it. *)
Theorem validated_action_stops_only_on_done :
  forall full_response_json action reasoning adb screen_dimensions omni_elements,
    extract_action full_response_json = Some (action, reasoning) ->
    py_truthy (dict_get action "action") = true
    /\ (fst (execute_action action adb screen_dimensions omni_elements) = Ok false
        <-> dict_get action "action" = PStr "DONE").
Proof.
  intros full_response_json action reasoning adb screen_dimensions omni_elements Hextract.
  now apply (validated_action_stops_only_on_done_aux full_response_json action reasoning).
Qed.

Lemma validated_action_stops_only_on_done_witness :
  py_truthy (dict_get [("action", PStr "DONE")] "action") = true
  /\ fst (execute_action [("action", PStr "DONE")] all_accepting (1080, 2400) None) = Ok false.
Proof.
  destruct (validated_action_stops_only_on_done
              (PDict [("action", PDict [("action", PStr "DONE")]); ("reasoning", PStr "done")])
              [("action", PStr "DONE")] (PStr "done") all_accepting (1080, 2400) None
              eq_refl) as [Htruthy Hstop].
  split; [exact Htruthy | apply Hstop; reflexivity].
Defined.

(** X18: in a loop whose model answers only with actions [get_llm_action]
    lets through, the executor returns [False] on no action but ['DONE']:
    when the loop is left on the executor's signal, the task was declared
    done. *)
Theorem loop_stops_only_on_done :
  forall env screen_dims adb0,
    (forall k omni_elements history path llm_action llm_reasoning,
        get_llm_action env k omni_elements history path = Some (llm_action, llm_reasoning) ->
        exists full_response_json,
          extract_action full_response_json = Some (llm_action, llm_reasoning)) ->
    let run := agent_loop env screen_dims adb0 in
    (forall k llm_action,
        In (EvExecute k llm_action false) (trace (snd run)) ->
        dict_get llm_action "action" = PStr "DONE")
    /\ (fst run = ExecutorStopped ->
        exists k llm_action,
          In (EvExecute k llm_action false) (trace (snd run))
          /\ dict_get llm_action "action" = PStr "DONE").
Proof.
  intros env screen_dims adb0 Hvalid run.
  assert (Hdone : executes_done_only (snd run)).
  { destruct (run_steps_invariant (fun _ st => executes_done_only st)
                                  (fun _ st => executes_done_only st)
                                  env screen_dims adb0 config.MAX_STEPS) as [[_ H] | H];
      try exact H.
    - intros s st r _ Hinv Hiter.
      destruct Hiter as [Hshot | el path Hshot Homni Hllm
                         | el path a reasoning summ cont adb' Hshot Homni Hllm Hsumm Hrun entry].
      + intros k a Hin. simpl in Hin. apply in_app_or in Hin.
        destruct Hin as [Hin | [Hin | []]]; [now apply (Hinv k) | discriminate].
      + intros k a Hin. simpl in Hin. apply in_app_or in Hin.
        destruct Hin as [Hin | [Hin | [Hin | [Hin | []]]]];
          [now apply (Hinv k) | discriminate ..].
      + assert (Hnew : executes_done_only
                         (mkState adb'
                            (list_slice_from (- config.ACTION_HISTORY_LENGTH)
                                             (action_history st ++ [entry]))
                            (Some summ)
                            (trace st
                             ++ [EvScreenshot (s + 1) true; EvOmniparser (s + 1);
                                 EvLLM (s + 1) true]
                             ++ (if same_summary summ (last_action_summary st)
                                 then [EvLoopWarning (s + 1)] else [])
                             ++ [EvExecute (s + 1) a cont; EvAppend entry]))).
        { intros k a0 Hin. cbn [trace] in Hin. apply in_app_or in Hin.
          destruct Hin as [Hin | Hin]; [now apply (Hinv k) |].
          assert (Heq : EvExecute (s + 1) a cont = EvExecute k a0 false).
          { destruct (same_summary summ (last_action_summary st)); simpl in Hin;
              repeat (destruct Hin as [Hin | Hin]; [first [discriminate | exact Hin] |]);
              contradiction. }
          injection Heq as _ -> ->.
          destruct (Hvalid _ _ _ _ _ _ Hllm) as [v Hextract].
          apply (proj2 (validated_action_stops_only_on_done_aux v a0 reasoning Hextract
                                                                 (adb st) screen_dims el)).
          now rewrite Hrun. }
        unfold finish. destruct cont; exact Hnew.
    - intros k a []. }
  split; [exact Hdone |].
  intros Hexit.
  destruct (agent_loop_counts env screen_dims adb0) as [[Hmax _] | (_ & _ & Hwhy)].
  - fold run in Hmax. congruence.
  - fold run in Hwhy. rewrite Hexit in Hwhy. simpl in Hwhy.
    destruct Hwhy as (k & a & Hin). exists k, a. split; [exact Hin | now apply (Hdone k)].
Qed.

Lemma loop_stops_only_on_done_witness :
  let run := agent_loop tap_then_done (1000, 2000) all_accepting in
  exists k llm_action,
    In (EvExecute k llm_action false) (trace (snd run))
    /\ dict_get llm_action "action" = PStr "DONE".
Proof.
  cbv zeta.
  assert (Hvalid : forall k omni_elements history path llm_action llm_reasoning,
             get_llm_action tap_then_done k omni_elements history path
             = Some (llm_action, llm_reasoning) ->
             exists full_response_json,
               extract_action full_response_json = Some (llm_action, llm_reasoning)).
  { intros k omni_elements history path llm_action llm_reasoning H.
    exists (PDict [("action", PDict llm_action); ("reasoning", llm_reasoning)]).
    simpl in H. destruct (Nat.eqb k 1); injection H as <- <-; reflexivity. }
  apply (proj2 (loop_stops_only_on_done tap_then_done (1000, 2000) all_accepting Hvalid)).
  reflexivity.
Defined.

(* ===================================================================== *)
(** ** Reading the elements *)
(* ===================================================================== *)

Lemma dict_get_set (d : pydict) (k : string) (v : pyval) :
  dict_get (dict_set d k v) k = v.
Proof.
  unfold dict_get. induction d as [| [k' v'] d IH]; simpl.
  - now rewrite String.eqb_refl.
  - destruct (String.eqb k k') eqn:Hk; simpl; rewrite Hk; [reflexivity | exact IH].
Qed.

Lemma set_index_has_index (d : pydict) (z : Z) : has_index (dict_set d "index" (PInt z)).
Proof. unfold has_index, index_of. now rewrite dict_get_set. Qed.

Lemma collect_elements_indexed literal_eval matches elements :
  collect_elements literal_eval matches = Ok elements -> Forall has_index elements.
Proof.
  revert elements. induction matches as [| [index_str dict_str] matches IH];
    intros elements; simpl.
  - intros [= <-]. constructor.
  - destruct (int_of_str index_str) as [index | err]; [| apply IH].
    destruct (literal_eval dict_str) as [[| | | | | | d] | | err]; try discriminate;
      [| apply IH].
    destruct (collect_elements literal_eval matches) as [rest | err]; [| discriminate].
    simpl. intros [= <-]. constructor; [apply set_index_has_index | now apply IH].
Qed.

Lemma insert_by_index_perm element sorted :
  Permutation (element :: sorted) (insert_by_index element sorted).
Proof.
  induction sorted as [| x sorted IH]; simpl; [reflexivity |].
  destruct (index_of element <? index_of x); [reflexivity |].
  rewrite perm_swap. now constructor.
Qed.

Lemma insert_by_index_sorted element sorted :
  StronglySorted Z.le (map index_of sorted) ->
  StronglySorted Z.le (map index_of (insert_by_index element sorted)).
Proof.
  induction sorted as [| x sorted IH]; simpl; intros Hsorted.
  - repeat constructor.
  - apply StronglySorted_inv in Hsorted. destruct Hsorted as [Hrest Hhead].
    destruct (index_of element <? index_of x) eqn:Hlt; simpl.
    + apply Z.ltb_lt in Hlt. constructor.
      * constructor; assumption.
      * constructor; [lia |]. rewrite Forall_forall in *. intros y Hy.
        specialize (Hhead y Hy). lia.
    + apply Z.ltb_ge in Hlt. constructor; [now apply IH |].
      rewrite Forall_forall in *. intros y Hy.
      apply in_map_iff in Hy. destruct Hy as (e & <- & He).
      apply (Permutation_in _ (Permutation_sym (insert_by_index_perm element sorted))) in He.
      destruct He as [<- | He]; [lia |].
      apply Hhead. now apply in_map.
Qed.

Lemma filter_none_above z (l : list pydict) :
  Forall (fun y => z < y) (map index_of l) -> filter (same_index z) l = [].
Proof.
  induction l as [| x l IH]; simpl; intros H; [reflexivity |].
  apply Forall_cons_iff in H. destruct H as [Hx Hl].
  unfold same_index at 1. destruct (Z.eqb_spec (index_of x) z); [lia | now apply IH].
Qed.

(** Inserting keeps the elements of each index in their order, the new one
    last among its equals. *)
Lemma insert_by_index_stable z element sorted :
  StronglySorted Z.le (map index_of sorted) ->
  filter (same_index z) (insert_by_index element sorted)
  = filter (same_index z) sorted ++ filter (same_index z) [element].
Proof.
  induction sorted as [| x sorted IH]; intros Hsorted.
  - reflexivity.
  - cbn [insert_by_index]. cbn [map] in Hsorted.
    apply StronglySorted_inv in Hsorted. destruct Hsorted as [Hrest Hhead].
    destruct (index_of element <? index_of x) eqn:Hlt.
    + apply Z.ltb_lt in Hlt.
      change (filter (same_index z) (element :: x :: sorted))
        with (if same_index z element
              then element :: filter (same_index z) (x :: sorted)
              else filter (same_index z) (x :: sorted)).
      change (filter (same_index z) [element])
        with (if same_index z element then [element] else []).
      destruct (same_index z element) eqn:He.
      * apply Z.eqb_eq in He.
        rewrite (filter_none_above z (x :: sorted)); [reflexivity |].
        cbn [map]. constructor; [lia |].
        rewrite Forall_forall in *. intros y Hy. specialize (Hhead y Hy). lia.
      * now rewrite app_nil_r.
    + change (filter (same_index z) (x :: insert_by_index element sorted))
        with (if same_index z x
              then x :: filter (same_index z) (insert_by_index element sorted)
              else filter (same_index z) (insert_by_index element sorted)).
      change (filter (same_index z) (x :: sorted))
        with (if same_index z x
              then x :: filter (same_index z) sorted
              else filter (same_index z) sorted).
      rewrite (IH Hrest). destruct (same_index z x); reflexivity.
Qed.

Lemma fold_insert_facts (elements sorted : list pydict) :
  StronglySorted Z.le (map index_of sorted) ->
  let result := fold_left (fun acc element => insert_by_index element acc) elements sorted in
  StronglySorted Z.le (map index_of result)
  /\ Permutation (sorted ++ elements) result
  /\ forall z, filter (same_index z) result
               = filter (same_index z) sorted ++ filter (same_index z) elements.
Proof.
  revert sorted. induction elements as [| e elements IH]; intros sorted Hsorted;
    cbv zeta; cbn [fold_left].
  - rewrite app_nil_r. split; [exact Hsorted | split; [reflexivity |]].
    intros z. cbn [filter]. now rewrite app_nil_r.
  - destruct (IH (insert_by_index e sorted) (insert_by_index_sorted e sorted Hsorted))
      as (H1 & H2 & H3).
    split; [exact H1 | split].
    + rewrite <- H2. rewrite <- (insert_by_index_perm e sorted).
      rewrite <- Permutation_middle. reflexivity.
    + intros z. rewrite H3, (insert_by_index_stable z e sorted Hsorted).
      change (e :: elements) with ([e] ++ elements).
      rewrite (filter_app _ [e] elements), <- app_assoc. reflexivity.
Qed.

Lemma sort_by_index_facts (elements : list pydict) :
  StronglySorted Z.le (map index_of (sort_by_index elements))
  /\ Permutation elements (sort_by_index elements)
  /\ forall z, filter (same_index z) (sort_by_index elements)
               = filter (same_index z) elements.
Proof.
  unfold sort_by_index.
  destruct (fold_insert_facts elements [] (SSorted_nil _)) as (H1 & H2 & H3).
  split; [exact H1 | split; [exact H2 | exact H3]].
Qed.

Lemma parse_collects literal_eval output_string elements :
  parse_omniparser_output_string literal_eval output_string = Ok elements ->
  exists collected,
    elements = sort_by_index collected
    /\ (output_string = EmptyString /\ collected = []
        \/ collect_elements literal_eval
             (findall_icons 0 (list_ascii_of_string (py_strip output_string)))
           = Ok collected).
Proof.
  unfold parse_omniparser_output_string. destruct output_string as [| c rest].
  - intros [= <-]. exists []. split; [reflexivity | now left].
  - destruct (collect_elements literal_eval
                (findall_icons 0 (list_ascii_of_string (py_strip (String c rest)))))
      as [collected | err]; simpl; [| discriminate].
    intros [= <-]. exists collected. split; [reflexivity | now right].
Qed.

Lemma parsed_elements_indexed_aux literal_eval output_string elements :
  parse_omniparser_output_string literal_eval output_string = Ok elements ->
  forall element, In element elements -> has_index element.
Proof.
  intros Hparse. apply parse_collects in Hparse.
  destruct Hparse as (collected & -> & Hcollected).
  destruct (sort_by_index_facts collected) as (_ & Hperm & _).
  intros element Hin. apply (Permutation_in _ (Permutation_sym Hperm)) in Hin.
  assert (Hall : Forall has_index collected).
  { destruct Hcollected as [[_ ->] | Hcollected]; [constructor |].
    now apply (collect_elements_indexed literal_eval _ _ Hcollected). }
  rewrite Forall_forall in Hall. now apply Hall.
Qed.


(** X20: sorting loses and adds nothing, and keeps the elements of one
    index in the order of their lines: what the parser returns is a
    rearrangement of the elements of the lines that parsed, stable for
    each index. *)
Theorem parsed_elements_stable :
  forall literal_eval output_string elements c rest,
    output_string = String c rest ->
    parse_omniparser_output_string literal_eval output_string = Ok elements ->
    exists collected,
      collect_elements literal_eval
        (findall_icons 0 (list_ascii_of_string (py_strip output_string))) = Ok collected
      /\ Permutation collected elements
      /\ forall z, filter (same_index z) elements = filter (same_index z) collected.
Proof.
  intros literal_eval output_string elements c rest Hnonempty Hparse.
  apply parse_collects in Hparse. destruct Hparse as (collected & -> & Hcollected).
  destruct Hcollected as [[Hempty _] | Hcollected]; [congruence |].
  exists collected. destruct (sort_by_index_facts collected) as (_ & Hperm & Hstable).
  split; [exact Hcollected | split; [exact Hperm | exact Hstable]].
Qed.


Lemma parsed_elements_stable_witness :
  exists collected,
    collect_elements literal_eval_two_icons
      (findall_icons 0 (list_ascii_of_string (py_strip two_icons_text))) = Ok collected
    /\ Permutation collected two_icons
    /\ forall z, filter (same_index z) two_icons = filter (same_index z) collected.
Proof.
  apply (parsed_elements_stable literal_eval_two_icons two_icons_text two_icons
                                "i"%char (str_drop 1 two_icons_text)).
  - reflexivity.
  - vm_compute. reflexivity.
Defined.




Lemma has_index_not_none element : has_index element -> py_eq (dict_get element "index") PNone = false.
Proof. unfold has_index. intros ->. reflexivity. Qed.

Lemma has_index_found element : has_index element -> found (Some element) = true.
Proof.
  unfold has_index. destruct element; [discriminate | reflexivity].
Qed.

Lemma or_empty_some (l : list pydict) : or_empty (Some l) = l.
Proof. destruct l; reflexivity. Qed.

(** X22: every element the parser returns is found again by its index, as
    an element that is true and carries that index; and the absent index,
    [None], finds none of them. *)
Theorem parsed_elements_found_by_index :
  forall literal_eval output_string elements,
    parse_omniparser_output_string literal_eval output_string = Ok elements ->
    (forall element,
        In element elements ->
        exists target_element,
          find_element (Some elements) (PInt (index_of element)) = Some target_element
          /\ dict_get target_element "index" = PInt (index_of element)
          /\ found (Some target_element) = true)
    /\ find_element (Some elements) PNone = None.
Proof.
  intros literal_eval output_string elements Hparse.
  pose proof (parsed_elements_indexed_aux literal_eval output_string elements Hparse)
    as Hindexed.
  unfold find_element. rewrite or_empty_some. split.
  - intros element Hin.
    destruct (find (fun e => py_eq (dict_get e "index") (PInt (index_of element))) elements)
      as [target |] eqn:Hfind.
    + apply find_some in Hfind. destruct Hfind as [Htarget Heq].
      pose proof (Hindexed target Htarget) as Hti. unfold has_index in Hti.
      rewrite Hti in Heq. unfold py_eq in Heq. simpl in Heq. apply Z.eqb_eq in Heq.
      exists target. split; [reflexivity | split].
      * now rewrite Hti, Heq.
      * now apply has_index_found, Hindexed.
    + exfalso. pose proof (find_none _ _ Hfind _ Hin) as Hne.
      pose proof (Hindexed element Hin) as Hei. unfold has_index in Hei.
      cbv beta in Hne. rewrite Hei in Hne. unfold py_eq in Hne. simpl in Hne.
      now rewrite Z.eqb_refl in Hne.
  - destruct (find (fun e => py_eq (dict_get e "index") PNone) elements)
      as [target |] eqn:Hfind; [| reflexivity].
    apply find_some in Hfind. destruct Hfind as [Htarget Heq].
    now rewrite (has_index_not_none target (Hindexed target Htarget)) in Heq.
Qed.

Lemma parsed_elements_found_by_index_witness :
  (forall element,
      In element two_icons ->
      exists target_element,
        find_element (Some two_icons) (PInt (index_of element)) = Some target_element
        /\ dict_get target_element "index" = PInt (index_of element)
        /\ found (Some target_element) = true)
  /\ find_element (Some two_icons) PNone = None.
Proof.
  apply (parsed_elements_found_by_index literal_eval_two_icons two_icons_text two_icons).
  vm_compute. reflexivity.
Defined.

(** X23: on the elements of the parser a [TAP] without [element_index]
    selects nothing: the executor issues no call and returns [True], and
    the summary says that no element was found. *)
Theorem tap_without_index_on_parsed_elements :
  forall literal_eval output_string elements action_data adb screen_dimensions,
    parse_omniparser_output_string literal_eval output_string = Ok elements ->
    dict_get action_data "action" = PStr "TAP" ->
    dict_get action_data "element_index" = PNone ->
    execute_action action_data adb screen_dimensions (Some elements) = (Ok true, adb)
    /\ summarize_action action_data (Some elements)
       = Ok "Action: TAP (Index: None, Content: 'Element not found')".
Proof.
  intros literal_eval output_string elements action_data adb [width height]
         Hparse Hkind Hidx.
  pose proof (parsed_elements_indexed_aux literal_eval output_string elements Hparse)
    as Hindexed.
  assert (Hnone : find_element (Some elements) PNone = None).
  { unfold find_element. rewrite or_empty_some.
    destruct (find (fun e => py_eq (dict_get e "index") PNone) elements)
      as [target |] eqn:Hfind; [| reflexivity].
    apply find_some in Hfind. destruct Hfind as [Htarget Heq].
    now rewrite (has_index_not_none target (Hindexed target Htarget)) in Heq. }
  split.
  - unfold execute_action, execute_body, execute_kind.
    rewrite Hkind, Hidx, Hnone. reflexivity.
  - unfold summarize_action, summarize_body.
    rewrite Hkind, Hidx, Hnone. reflexivity.
Qed.

Lemma tap_without_index_on_parsed_elements_witness :
  execute_action [("action", PStr "TAP")] all_accepting (1080, 2400) (Some two_icons)
  = (Ok true, all_accepting)
  /\ summarize_action [("action", PStr "TAP")] (Some two_icons)
     = Ok "Action: TAP (Index: None, Content: 'Element not found')".
Proof.
  apply (tap_without_index_on_parsed_elements literal_eval_two_icons two_icons_text two_icons);
    vm_compute; reflexivity.
Defined.

Lemma list_ascii_app (a b : string) :
  list_ascii_of_string (a +s+ b) = list_ascii_of_string a ++ list_ascii_of_string b.
Proof. induction a as [| c a IH]; simpl; [reflexivity | now rewrite IH]. Qed.

Lemma str_forallb_list p (s : string) :
  str_forallb p s = forallb p (list_ascii_of_string s).
Proof. induction s as [| c s IH]; simpl; [reflexivity | now rewrite IH]. Qed.

Lemma span_app p (taken remaining : list ascii) :
  forallb p taken = true -> stops_span p remaining ->
  span p (taken ++ remaining) = (taken, remaining).
Proof.
  intros Htaken Hstop. induction taken as [| c taken IH].
  - destruct remaining as [| c remaining]; [reflexivity |].
    cbn [app span]. cbn [stops_span] in Hstop. now rewrite Hstop.
  - cbn [forallb] in Htaken. apply andb_prop in Htaken. destruct Htaken as [Hc Htaken].
    cbn [app span]. rewrite Hc, (IH Htaken). reflexivity.
Qed.

Lemma isdigit_not_space c : isdigit c = true -> isspace c = false.
Proof.
  unfold isdigit, isspace. generalize (code c). intros n Hn.
  apply andb_prop in Hn. destruct Hn as [H1 H2].
  apply Nat.leb_le in H1. apply Nat.leb_le in H2.
  repeat match goal with
         | |- context [(?a <=? ?b)%nat] => destruct (Nat.leb_spec a b)
         | |- context [(?a =? ?b)%nat] => destruct (Nat.eqb_spec a b)
         end; simpl; try reflexivity; lia.
Qed.

Lemma match_icon_chars digit digits body tail :
  forallb isdigit (digit :: digits) = true ->
  forallb not_newline body = true ->
  stops_span not_newline tail ->
  match_icon (list_ascii_of_string "icon " ++ (digit :: digits)
              ++ list_ascii_of_string ": {" ++ body ++ list_ascii_of_string "}" ++ tail)
  = Some (string_of_list_ascii (digit :: digits),
          string_of_list_ascii ("{"%char :: body ++ list_ascii_of_string "}"),
          List.length (list_ascii_of_string "icon " ++ (digit :: digits)
                       ++ list_ascii_of_string ": {" ++ body ++ list_ascii_of_string "}")).
Proof.
  intros Hdigits Hbody Htail. unfold match_icon.
  change (drop_prefix (list_ascii_of_string "icon") _)
    with (Some ([" "%char] ++ (digit :: digits)
                ++ list_ascii_of_string ": {" ++ body ++ list_ascii_of_string "}" ++ tail)).
  cbv beta iota.
  rewrite (span_app isspace [" "%char]); [| reflexivity |].
  2:{ cbn [app stops_span]. apply isdigit_not_space.
      cbn [forallb] in Hdigits. now apply andb_prop in Hdigits. }
  rewrite (span_app isdigit (digit :: digits)); [| exact Hdigits | reflexivity].
  change (list_ascii_of_string ": {" ++ body ++ list_ascii_of_string "}" ++ tail)
    with (":"%char :: [" "%char] ++ "{"%char :: body ++ list_ascii_of_string "}" ++ tail).
  cbv beta iota. change (Ascii.eqb ":" ":") with true. cbv beta iota.
  change (negb true) with false. cbv beta iota.
  rewrite (span_app isspace [" "%char]); [| reflexivity | reflexivity].
  cbv beta iota. change (Ascii.eqb "{" "{") with true. change (negb true) with false.
  cbv beta iota.
  rewrite app_assoc.
  rewrite (span_app not_newline (body ++ list_ascii_of_string "}")); [| | exact Htail].
  2:{ rewrite forallb_app, Hbody. reflexivity. }
  rewrite rev_app_distr. change (rev (list_ascii_of_string "}")) with ["}"%char].
  cbn [app]. change (Ascii.eqb "}" "}") with true. cbv beta iota.
  f_equal. f_equal. cbn [List.length list_ascii_of_string app].
  rewrite !length_app. cbn [List.length list_ascii_of_string app].
  rewrite !length_app. cbn [List.length]. lia.
Qed.

Lemma findall_icons_skip (passed rest : list ascii) :
  findall_icons (List.length passed) (passed ++ rest) = findall_icons 0 rest.
Proof. induction passed as [| c passed IH]; [reflexivity | exact IH]. Qed.

Lemma findall_icons_newline rest :
  findall_icons 0 (newline :: rest) = findall_icons 0 rest.
Proof. reflexivity. Qed.

Lemma findall_icons_line entry tail :
  entry_ok entry = true ->
  stops_span not_newline tail ->
  findall_icons 0 (list_ascii_of_string (icon_line entry) ++ tail)
  = line_groups entry :: findall_icons 0 tail.
Proof.
  destruct entry as [index_str body]. unfold entry_ok, icon_line, line_groups.
  cbn [fst snd]. intros Hok Htail.
  apply andb_prop in Hok. destruct Hok as [Hok Hbody].
  apply andb_prop in Hok. destruct Hok as [Hnonempty Hdigits].
  rewrite str_forallb_list in Hdigits, Hbody.
  destruct index_str as [| digit index_str]; [discriminate |]. clear Hnonempty.
  rewrite !list_ascii_app, <- !app_assoc.
  change (list_ascii_of_string (String digit index_str))
    with (digit :: list_ascii_of_string index_str) in *.
  pose proof (match_icon_chars digit (list_ascii_of_string index_str)
                               (list_ascii_of_string body) tail Hdigits Hbody Htail)
    as Hmatch.
  remember (digit :: list_ascii_of_string index_str) as digits eqn:Hd.
  change (list_ascii_of_string "icon " ++ digits ++ list_ascii_of_string ": {"
          ++ list_ascii_of_string body ++ list_ascii_of_string "}" ++ tail)
    with ("i"%char :: (list_ascii_of_string "con " ++ digits ++ list_ascii_of_string ": {"
          ++ list_ascii_of_string body ++ list_ascii_of_string "}" ++ tail)) in *.
  cbn [findall_icons]. rewrite Hmatch.
  change (list_ascii_of_string "icon " ++ digits ++ list_ascii_of_string ": {"
          ++ list_ascii_of_string body ++ list_ascii_of_string "}")
    with ("i"%char :: (list_ascii_of_string "con " ++ digits ++ list_ascii_of_string ": {"
          ++ list_ascii_of_string body ++ list_ascii_of_string "}")).
  cbn [List.length]. rewrite Nat.sub_succ, Nat.sub_0_r.
  replace (list_ascii_of_string "con " ++ digits ++ list_ascii_of_string ": {"
           ++ list_ascii_of_string body ++ list_ascii_of_string "}" ++ tail)
    with ((list_ascii_of_string "con " ++ digits ++ list_ascii_of_string ": {"
           ++ list_ascii_of_string body ++ list_ascii_of_string "}") ++ tail)
    by now rewrite <- !app_assoc.
  rewrite findall_icons_skip. f_equal. subst digits. f_equal.
  - cbn [string_of_list_ascii]. now rewrite string_of_list_ascii_of_string.
  - change (list_ascii_of_string "}") with ["}"%char].
    cbn [string_of_list_ascii String.append]. f_equal.
    rewrite <- (string_of_list_ascii_of_string (body +s+ "}")), list_ascii_app.
    reflexivity.
Qed.

Lemma join_lines_cons line next lines :
  join_lines (line :: next :: lines)
  = line +s+ String newline (join_lines (next :: lines)).
Proof. reflexivity. Qed.

Lemma findall_icons_lines entries :
  forallb entry_ok entries = true ->
  findall_icons 0 (list_ascii_of_string (join_lines (map icon_line entries)))
  = map line_groups entries.
Proof.
  induction entries as [| entry entries IH]; [reflexivity |].
  cbn [forallb]. intros Hok. apply andb_prop in Hok. destruct Hok as [Hentry Hrest].
  cbn [map join_lines]. destruct entries as [| next entries].
  - cbn [map]. rewrite <- (app_nil_r (list_ascii_of_string (icon_line entry))).
    now rewrite (findall_icons_line entry [] Hentry I).
  - change (map icon_line (next :: entries))
      with (icon_line next :: map icon_line entries) at 1.
    cbv beta iota. rewrite list_ascii_app.
    change (list_ascii_of_string (String newline ?s))
      with (newline :: list_ascii_of_string s).
    rewrite (findall_icons_line entry _ Hentry); [| reflexivity].
    rewrite findall_icons_newline.
    change (icon_line next :: map icon_line entries) with (map icon_line (next :: entries)).
    now rewrite (IH Hrest).
Qed.

Lemma rstrip_app (a b : string) :
  b <> EmptyString -> rstrip b = b -> rstrip (a +s+ b) = a +s+ b.
Proof.
  intros Hb Hfix. induction a as [| c a IH]; [exact Hfix |].
  cbn [String.append rstrip]. rewrite IH.
  destruct (a +s+ b) eqn:Hab; [| reflexivity].
  destruct a; [now elim Hb | discriminate].
Qed.

Lemma join_lines_tight entry entries :
  (exists rest, join_lines (map icon_line (entry :: entries)) = String "i" rest)
  /\ rstrip (join_lines (map icon_line (entry :: entries)))
     = join_lines (map icon_line (entry :: entries)).
Proof.
  revert entry. induction entries as [| next entries IH]; intros entry.
  - cbn [map join_lines]. split; [eexists; reflexivity |].
    unfold icon_line. rewrite <- !append_assoc. now apply rstrip_app.
  - destruct (IH next) as [[rest Hrest] Hfix].
    change (map icon_line (entry :: next :: entries))
      with (icon_line entry :: icon_line next :: map icon_line entries).
    rewrite join_lines_cons. cbn [map] in Hrest, Hfix.
    split; [eexists; reflexivity |].
    change (icon_line entry +s+ String newline ?s)
      with (icon_line entry +s+ (String newline EmptyString) +s+ s).
    rewrite <- append_assoc. apply rstrip_app; [| exact Hfix].
    rewrite Hrest. discriminate.
Qed.

Lemma join_lines_strip entries :
  py_strip (join_lines (map icon_line entries)) = join_lines (map icon_line entries).
Proof.
  destruct entries as [| entry entries]; [reflexivity |].
  destruct (join_lines_tight entry entries) as [[rest Hrest] Hfix].
  unfold py_strip.
  replace (lstrip (join_lines (map icon_line (entry :: entries))))
    with (join_lines (map icon_line (entry :: entries))); [exact Hfix |].
  rewrite Hrest. reflexivity.
Qed.

(** X24: lines [icon <index>: {<body>}], joined by newlines, are read back
    one match a line, in the order of the lines, when every index is one or
    more digits and no body holds a newline; the parser then returns what
    the loop over these matches collects, sorted. *)
Theorem formatted_lines_are_read_back :
  forall literal_eval entries,
    forallb entry_ok entries = true ->
    findall_icons 0 (list_ascii_of_string (py_strip (join_lines (map icon_line entries))))
    = map line_groups entries
    /\ parse_omniparser_output_string literal_eval (join_lines (map icon_line entries))
       = exc_bind (collect_elements literal_eval (map line_groups entries))
                  (fun elements => Ok (sort_by_index elements)).
Proof.
  intros literal_eval entries Hok.
  assert (Hfind : findall_icons 0 (list_ascii_of_string
                                     (py_strip (join_lines (map icon_line entries))))
                  = map line_groups entries).
  { rewrite join_lines_strip. now apply findall_icons_lines. }
  split; [exact Hfind |].
  unfold parse_omniparser_output_string. rewrite Hfind.
  destruct entries as [| entry entries]; [reflexivity |].
  destruct (join_lines_tight entry entries) as [[rest ->] _]. reflexivity.
Qed.

Lemma formatted_lines_are_read_back_witness :
  findall_icons 0 (list_ascii_of_string (py_strip (join_lines (map icon_line two_entries))))
  = map line_groups two_entries
  /\ parse_omniparser_output_string literal_eval_two_icons
       (join_lines (map icon_line two_entries))
     = exc_bind (collect_elements literal_eval_two_icons (map line_groups two_entries))
                (fun elements => Ok (sort_by_index elements)).
Proof.
  apply (formatted_lines_are_read_back literal_eval_two_icons two_entries).
  reflexivity.
Defined.

(* ===================================================================== *)
(** ** The prompt *)
(* ===================================================================== *)






(** X27: the prompt shows the last [ACTION_HISTORY_LENGTH] (5) entries of
    the history only: entries before them change nothing in it. *)
Theorem format_prompt_reads_last_entries :
  forall task_description omni_elements older recent,
    Z.of_nat (List.length recent) = config.ACTION_HISTORY_LENGTH ->
    format_prompt task_description omni_elements (older ++ recent)
    = format_prompt task_description omni_elements recent.
Proof.
  intros task_description omni_elements older recent Hlen.
  unfold format_prompt. f_equal.
  assert (Hdesc : history_description (older ++ recent) = history_description recent).
  { unfold history_description.
    assert (Hrecent : list_slice_from (- config.ACTION_HISTORY_LENGTH) recent = recent).
    { rewrite history_slice. unfold last_k, history_length. rewrite <- Hlen, Nat2Z.id.
      now rewrite Nat.sub_diag. }
    assert (Hall : list_slice_from (- config.ACTION_HISTORY_LENGTH) (older ++ recent)
                   = recent).
    { rewrite history_slice. unfold last_k, history_length.
      rewrite <- Hlen, Nat2Z.id, length_app, Nat.add_sub.
      rewrite skipn_app, Nat.sub_diag, skipn_all. reflexivity. }
    cbv zeta. rewrite Hall, Hrecent.
    destruct recent as [| entry recent]; [discriminate |].
    destruct older; reflexivity. }
  now rewrite Hdesc.
Qed.

Lemma format_prompt_reads_last_entries_witness :
  format_prompt "Open the settings" (Some two_icons) ([wait_entry 1] ++ five_entries)
  = format_prompt "Open the settings" (Some two_icons) five_entries.
Proof.
  apply (format_prompt_reads_last_entries "Open the settings" (Some two_icons)
                                          [wait_entry 1] five_entries).
  reflexivity.
Defined.
